(** * Tier-1 hydraulic mixing heuristic engine ([src/engine.ts])

    A shallow embedding of the evaluation engine and the properties its
    specification states about it.

    Numbers.  The engine computes on JavaScript numbers.  Rounding is not
    modelled: the fields of a scenario and the quantities derived from them
    are real numbers ([R]), with [Math.PI], [Math.sqrt], [Math.abs],
    [Math.max], [Math.min] and [Math.pow(_, 2)] read as [PI], [sqrt],
    [Rabs], [Rmax], [Rmin] and [_ ^ 2].  The scenario form only commits a
    field when [parseFloat] gives something that is not NaN, so the inputs
    are numbers.  The Richardson number is the one quantity the engine sets
    to [Number.POSITIVE_INFINITY] and tests with [isNaN]; it has the type
    [number], which adds these two values to the reals.  Every division of
    the engine is guarded against a zero divisor, except the one inside the
    text of the nozzle recommendation, which divides by the target
    velocity; there, and for the root of a negative flow, the text holds
    the value of [/] and [sqrt] of the reals where JavaScript prints an
    infinity or NaN.

    Text.  A template literal is kept as the list of its pieces, the holes
    holding the number that is formatted and the formatting asked for, so
    that no decimal expansion of a real has to be produced.

    Besides the engine the file covers what uses it: the handlers of the
    scenario form that compute a field ([components/ScenarioForm]), the
    number format of the results panel ([components/ResultsPanel]), the
    scales and points of the operating point chart
    ([components/OperatingPointChart]) and the handlers of the list of
    scenarios ([App]). *)

From Stdlib Require Import Reals Machin Lra Lia List String Bool.
From Stdlib Require Import NArith DecimalString.
Import ListNotations.

Open Scope R_scope.

(** ** Comparisons as the code uses them: boolean tests *)

Definition Rltb (x y : R) : bool := if Rlt_dec x y then true else false.
Definition Rleb (x y : R) : bool := if Rle_dec x y then true else false.
Definition Rgtb (x y : R) : bool := Rltb y x.
Definition Rgeb (x y : R) : bool := Rleb y x.

Infix "<?" := Rltb (at level 70, no associativity) : R_scope.
Infix "<=?" := Rleb (at level 70, no associativity) : R_scope.
Infix ">?" := Rgtb (at level 70, no associativity) : R_scope.
Infix ">=?" := Rgeb (at level 70, no associativity) : R_scope.

(** ** Types *)

Inductive ConservatismLevel := cons_low | cons_normal | cons_high.
Inductive Orientation :=
  radial | tangential | downward | upward | opposite | unknown.
Inductive TankShape := cylindrical | rectangular.
Inductive RiLengthScale := nozzle | depth_quarter | tank_half.

Module Tank.
Record t := mk {
    shape : TankShape;
    diameter_m : R;
    water_depth_m : R;
    operating_storage_kL : R;
    reserve_unusable_kL : R
}.
End Tank.

Module Inlet.
Record t := mk {
    count : R;
    elevation_from_floor_m : R;
    nozzle_diameter_mm : R;
    orientation : Orientation;
    inclination_deg : R
}.
End Inlet.

Module Outlet.
Record t := mk {
    elevation_from_floor_m : R;
    orientation : Orientation
}.
End Outlet.

Module Operation.
Record t := mk {
    inflow_Lps : R;
    fill_event_volume_kL : R;
    events_per_day : R
}.
End Operation.

Module Water.
Record t := mk {
    temperature_inflow_min_C : R;
    temperature_inflow_max_C : R;
    temperature_tank_initial_C : R
}.
End Water.

Module Options.
Record t := mk {
    target_mixed_fraction : R;
    conservatism : ConservatismLevel;
    ri_length_scale : RiLengthScale;
    target_velocity_m_s : option R; (* a number; read with [?? 0.8] *)
    ri_threshold_warn : R;
    ri_threshold_fail : R;
    tor_threshold_warn : R;
    layout_score_warn : R;
    layout_score_fail : R;
    risk_vertical_proximity : R;
    risk_high_elevation : R;
    risk_orient_radial : R;
    risk_orient_upward : R;
    credit_orient_tangential : R;
    credit_orient_downward : R;
    credit_outlet_opposite : R;
    credit_multiple_inlets : R
}.
End Options.

Record Scenario := mkScenario {
  id : string;
  name : string;
  tank : Tank.t;
  inlet : Inlet.t;
  outlet : Outlet.t;
  operation : Operation.t;
  water : Water.t;
  options : Options.t
}.

Inductive Status := PASS | WARN | FAIL.

(** The values the Richardson number takes: a real, [Number.POSITIVE_INFINITY]
    or NaN. *)
Inductive number := Finite (r : R) | Infinity | NaN.

Definition isNaN (x : number) : bool :=
  match x with NaN => true | _ => false end.

(** [x > t] for a threshold [t]: every comparison with NaN is false. *)
Definition num_gtb (x : number) (t : R) : bool :=
  match x with
  | Finite r => r >? t
  | Infinity => true
  | NaN => false
  end.


Inductive Reach := upper_layer_only | partial | bottom.

(** Pieces of a template literal. *)
Inductive Piece :=
  | Text (s : string)
  | Show (x : R)                       (* ${x} *)
  | ToFixed (x : number) (digits : nat) (* ${x.toFixed(digits)} *).

Definition Message := list Piece.

Record Metrics := mkMetrics {
  inletVelocity_m_s : R;
  froudeInlet : R;
  richardsonNumber : number;
  turnoverRatio : R;
  jetPenetrationReach : Reach;
  horizontalRiskScore : R;
  deltaT : R;
  tankVolume_geom_m3 : R;
  tankVolume_total_effective_m3 : R;
  deltaT_inlet_vs_tank : R;
  deltaT_inlet_range : R;
  ri_numerator : R;
  ri_denominator : R;
  ri_lengthScale_m : R;
  beta_per_C : R
}.

Inductive Priority := high | medium | low.

Module Rec.
Inductive kind := design | operation.
Record t := mk {
    id : string;
    type : kind;
    priority : Priority;
    message : Message
}.
End Rec.
Definition Recommendation := Rec.t.

Inductive DominantRisk :=
  buoyancy | short_circuit | insufficient_momentum | none.

Record Result := mkResult {
  overallStatus : Status;
  verticalStatus : Status;
  horizontalStatus : Status;
  metrics : Metrics;
  recommendations : list Recommendation;
  validityFlags : list Message;
  dominantRisk : DominantRisk
}.

Definition Status_eqb (a b : Status) : bool :=
  match a, b with
  | PASS, PASS | WARN, WARN | FAIL, FAIL => true
  | _, _ => false
  end.

Definition Reach_eqb (a b : Reach) : bool :=
  match a, b with
  | upper_layer_only, upper_layer_only | partial, partial
  | bottom, bottom => true
  | _, _ => false
  end.

Definition Orientation_eqb (a b : Orientation) : bool :=
  match a, b with
  | radial, radial | tangential, tangential | downward, downward
  | upward, upward | opposite, opposite | unknown, unknown => true
  | _, _ => false
  end.

(** The severity order PASS < WARN < FAIL. *)
Definition severity (st : Status) : nat :=
  match st with PASS => 0 | WARN => 1 | FAIL => 2 end.

Definition Status_le (a b : Status) : Prop := (severity a <= severity b)%nat.

(** ** Constants and helper functions *)

Definition G : R := 9.81.

Definition computeNozzleArea (d_mm : R) : R :=
  let d_m := d_mm / 1000 in
  PI * (d_m / 2) ^ 2.

Definition computeTankVolumeCyl (D_m H_m : R) : R :=
  PI * D_m ^ 2 / 4 * H_m.

Definition computeInletVelocity (flow_Lps area_m2 count : R) : R :=
  if (area_m2 <=? 0) || (count <=? 0) then 0
  else
    let flow_m3s := flow_Lps / 1000 in
    let flowPerInlet := flow_m3s / count in
    flowPerInlet / area_m2.

Definition estimateBetaPerC (tempC : R) : R := 2.1e-4.

Definition computeFroudeInlet (Vjet d_nozzle_m : R) : R :=
  if d_nozzle_m <=? 0 then 0 else Vjet / sqrt (G * d_nozzle_m).

Definition computeTurnoverRatio (fillVol_m3 tankVol_m3 : R) : R :=
  if tankVol_m3 <=? 0 then 0 else fillVol_m3 / tankVol_m3.

(** ** The rule blocks of [analyzeScenario]

    [validityFlags] and [recs] are arrays the function pushes to; every
    block below returns what it pushes, in order, and [analyzeScenario]
    concatenates the blocks in the order of the source. *)

Definition initialFlags : list Message :=
  [ [Text "Tier-1 heuristics; not CFD"];
    [Text "Cylindrical tank model"];
    [Text "Assumes reserve volume participates in mixing"];
    [Text "Simplified thermal stratification"] ].

Definition flagVolumesExceed (v_eff_m3 v_geom_m3 : R) : Message :=
  [ Text "Warning: Specified volumes ("; ToFixed (Finite v_eff_m3) 0;
    Text "m³) exceed geometric capacity ("; ToFixed (Finite v_geom_m3) 0;
    Text "m³)." ].

Definition flagNoStorage : Message :=
  [ Text "Warning: No operating/reserve storage defined. Using geometric volume for turnover metrics." ].

Definition flagRiNaN : Message :=
  [ Text "Error: Calculated Richardson number is NaN. Check input values." ].

(** 1. Consistency checks on the volumes. *)
Definition volumeFlags (v_eff_m3 v_geom_m3 : R) : list Message :=
  (if v_eff_m3 >? v_geom_m3 * 1.01
   then [flagVolumesExceed v_eff_m3 v_geom_m3] else [])
  ++ (if v_eff_m3 <=? 0 then [flagNoStorage] else []).

Definition elevationRecs (inlet_elev outlet_elev depth : R)
  : list Recommendation :=
  (if inlet_elev >? depth
   then [Rec.mk "err-in-elev" Rec.design high
           [Text "Inlet elevation is higher than water depth."]]
   else [])
  ++ (if outlet_elev >? depth
      then [Rec.mk "err-out-elev" Rec.design high
              [Text "Outlet elevation is higher than water depth."]]
      else []).

(** 3. The length scale of the Richardson number. *)
Definition lengthScale (policy : RiLengthScale) (d_noz_m diameter depth : R)
  : R :=
  let L_buoyancy :=
    match policy with
    | depth_quarter => Rmax 0.05 (Rmin 2.0 (0.25 * depth))
    | tank_half => Rmin diameter depth / 2
    | nozzle => d_noz_m
    end in
  Rmax L_buoyancy 0.05.

(** 3. The Richardson number with its numerator and denominator:
    [(Ri, ri_num, ri_den)]. *)
Definition richardson (Vjet dt_vs_tank L_buoyancy beta : R)
  : number * R * R :=
  if Vjet <=? 0.0001 then (Infinity, 0, 0)
  else if dt_vs_tank <? 0.01 then (Finite 0, 0, Vjet ^ 2)
  else
    let ri_num := G * beta * dt_vs_tank * L_buoyancy in
    let ri_den := Vjet ^ 2 in
    (Finite (ri_num / ri_den), ri_num, ri_den).

(** 3. The NaN check: the number kept and the flag pushed. *)
Definition validateRi (Ri : number) : number * list Message :=
  if isNaN Ri then (Finite 0, [flagRiNaN]) else (Ri, []).

(** 4.A The reach of the jet. *)
Definition penetration (stableStratLikely : bool) (inlet_elev depth : R)
  : Reach :=
  if stableStratLikely then
    if inlet_elev >? 0.5 * depth then upper_layer_only
    else if inlet_elev >? 0.25 * depth then partial
    else bottom
  else bottom.

(** 4.B The momentum rule, from the initial status PASS. *)
Definition momentumCheck (Vjet v_target : R) : Status * list Recommendation :=
  if Vjet <? 0.5 * v_target then
    (FAIL,
     [Rec.mk "vert-mom-fail" Rec.design high
        [Text "Inlet momentum is critically low ("; ToFixed (Finite Vjet) 2;
         Text " m/s). Jet likely collapses immediately."]])
  else if Vjet <? v_target then
    (WARN,
     [Rec.mk "vert-mom-warn" Rec.design medium
        [Text "Inlet velocity ("; ToFixed (Finite Vjet) 2;
         Text " m/s) is below recommended target ("; Show v_target;
         Text " m/s) for robust mixing."]])
  else (PASS, []).

(** 4.B The block guarded by [verticalStatus !== 'FAIL']: stratification,
    then the Richardson thresholds. *)
Definition buoyancyCheck (reach : Reach) (Ri : number)
    (ri_threshold_fail ri_threshold_warn : R) (verticalStatus : Status)
  : Status * list Recommendation :=
  if negb (Status_eqb verticalStatus FAIL) then
    if Reach_eqb reach upper_layer_only then
      (FAIL,
       [Rec.mk "vert-strat-fail" Rec.design high
          [Text "High inlet elevation with temperature difference risks buoyant stratification."]])
    else if num_gtb Ri ri_threshold_fail then
      (FAIL,
       [Rec.mk "vert-ri-fail" Rec.operation high
          [Text "Richardson number is very high (";
           (if num_gtb Ri 100 then Text ">100" else ToFixed Ri 1);
           Text " > "; Show ri_threshold_fail;
           Text "). Buoyancy forces overwhelm mixing."]])
    else if num_gtb Ri ri_threshold_warn then
      ((if Status_eqb verticalStatus WARN then WARN else WARN),
       [Rec.mk "vert-ri-warn" Rec.operation medium
          [Text "Richardson number > "; Show ri_threshold_warn; Text " (";
           ToFixed Ri 2;
           Text ") indicates buoyancy forces are significant."]])
    else (verticalStatus, [])
  else (verticalStatus, []).

(** 4.B The turnover rule. *)
Definition turnoverCheck (TOR tor_threshold_warn : R) (verticalStatus : Status)
  : Status * list Recommendation :=
  if (TOR <? tor_threshold_warn) && negb (Status_eqb verticalStatus FAIL) then
    ((if Status_eqb verticalStatus PASS then WARN else verticalStatus),
     [Rec.mk "vert-tor" Rec.operation low
        [Text "Turnover ratio per fill is low (";
         ToFixed (Finite (TOR * 100)) 1; Text "% < ";
         ToFixed (Finite (tor_threshold_warn * 100)) 0; Text "%)."]])
  else (verticalStatus, []).

(** 5. The layout score, clamped, with the distance between inlet and
    outlet it uses: [(hScore, distInOut)]. *)
Definition layoutScore (tank : Tank.t) (inlet : Inlet.t) (outlet : Outlet.t)
    (options : Options.t) : R * R :=
  let hScore := 0 in
  let distInOut :=
    Rabs (Inlet.elevation_from_floor_m inlet
          - Outlet.elevation_from_floor_m outlet) in
  let hScore :=
    if distInOut <? 0.15 * Tank.water_depth_m tank
    then hScore + Options.risk_vertical_proximity options else hScore in
  let hScore :=
    if (Inlet.elevation_from_floor_m inlet >? 0.6 * Tank.water_depth_m tank)
       && (Outlet.elevation_from_floor_m outlet
           >? 0.6 * Tank.water_depth_m tank)
    then hScore + Options.risk_high_elevation options else hScore in
  let hScore :=
    if Orientation_eqb (Inlet.orientation inlet) radial
    then hScore + Options.risk_orient_radial options else hScore in
  let hScore :=
    if Orientation_eqb (Inlet.orientation inlet) tangential
    then hScore - Options.credit_orient_tangential options else hScore in
  let hScore :=
    if Orientation_eqb (Inlet.orientation inlet) downward
    then hScore - Options.credit_orient_downward options else hScore in
  let hScore :=
    if Orientation_eqb (Inlet.orientation inlet) upward
    then hScore + Options.risk_orient_upward options else hScore in
  let hScore :=
    if Orientation_eqb (Outlet.orientation outlet) opposite
    then hScore - Options.credit_outlet_opposite options else hScore in
  let hScore :=
    if Inlet.count inlet >=? 2
    then hScore - Options.credit_multiple_inlets options else hScore in
  (Rmax 0 (Rmin 100 hScore), distInOut).

Definition layoutStatus (hScore layout_score_fail layout_score_warn : R)
  : Status :=
  if hScore >=? layout_score_fail then FAIL
  else if hScore >=? layout_score_warn then WARN
  else PASS.

Definition layoutRecs (horizontalStatus : Status) (hScore distInOut depth : R)
  : list Recommendation :=
  if negb (Status_eqb horizontalStatus PASS) then
    [Rec.mk "horiz-main" Rec.design medium
       [Text "Horizontal layout risk score is "; Show hScore; Text "/100. ";
        Text (if Status_eqb horizontalStatus FAIL
              then "Consider baffling or reorienting nozzles." else "")]]
    ++ (if distInOut <? 0.15 * depth
        then [Rec.mk "horiz-prox" Rec.design high
                [Text "Inlet and Outlet are vertically close. Risk of short-circuiting."]]
        else [])
  else [].

(** 6. The nozzle diameter that gives the target velocity. *)
Definition nozzleRecs (Vjet v_target inflow_Lps count : R)
  : list Recommendation :=
  if Vjet <? v_target then
    let q_m3s := inflow_Lps / 1000 in
    let q_per_inlet := q_m3s / Rmax 1 count in
    let max_d_m := sqrt ((4 * q_per_inlet) / (PI * v_target)) in
    [Rec.mk "rec-nozzle" Rec.design high
       [Text "To achieve "; Show v_target;
        Text " m/s, reduce nozzle diameter to ~";
        ToFixed (Finite (max_d_m * 1000)) 0; Text "mm."]]
  else [].

Definition lowerInletRecs (inlet_elev depth : R) (verticalStatus : Status)
  : list Recommendation :=
  if (inlet_elev >? 0.25 * depth) && negb (Status_eqb verticalStatus PASS)
  then [Rec.mk "rec-elev" Rec.design high
          [Text "Lower inlet to bottom quarter (<= ";
           ToFixed (Finite (0.25 * depth)) 1; Text "m)."]]
  else [].

(** 7. Aggregation. *)
Definition aggregate (verticalStatus horizontalStatus : Status) : Status :=
  if Status_eqb verticalStatus FAIL || Status_eqb horizontalStatus FAIL
  then FAIL
  else if Status_eqb verticalStatus WARN || Status_eqb horizontalStatus WARN
  then WARN
  else PASS.

Definition classifyRisk (overallStatus verticalStatus : Status)
    (Vjet v_target : R) (Ri : number) (ri_threshold_warn : R) : DominantRisk :=
  if negb (Status_eqb overallStatus PASS) then
    if Status_eqb verticalStatus FAIL || Status_eqb verticalStatus WARN then
      if Vjet <? 0.5 * v_target then insufficient_momentum
      else if num_gtb Ri ri_threshold_warn then buoyancy
      else insufficient_momentum
    else short_circuit
  else none.

(** ** The engine *)

(** [options.target_velocity_m_s ?? 0.8]: the one field the engine reads
    with a fallback for a value that is missing. *)
Definition v_target (options : Options.t) : R :=
  match Options.target_velocity_m_s options with
  | Some v => v
  | None => 0.8
  end.

Definition analyzeScenario (scenario : Scenario) : Result :=
  let tank := tank scenario in
  let inlet := inlet scenario in
  let outlet := outlet scenario in
  let operation := operation scenario in
  let water := water scenario in
  let options := options scenario in
  (* 1. Volume and geometry checks *)
  let v_geom_m3 :=
    computeTankVolumeCyl (Tank.diameter_m tank) (Tank.water_depth_m tank) in
  let v_oper_m3 := Rmax 0 (Tank.operating_storage_kL tank) in
  let v_reserve_m3 := Rmax 0 (Tank.reserve_unusable_kL tank) in
  let v_eff_m3 := v_oper_m3 + v_reserve_m3 in
  let validityFlags := initialFlags ++ volumeFlags v_eff_m3 v_geom_m3 in
  let volumeForTurnover := if v_eff_m3 >? 0 then v_eff_m3 else v_geom_m3 in
  let recs :=
    elevationRecs (Inlet.elevation_from_floor_m inlet)
      (Outlet.elevation_from_floor_m outlet) (Tank.water_depth_m tank) in
  (* 2. Hydraulics and thermal *)
  let d_noz_m := Inlet.nozzle_diameter_mm inlet / 1000 in
  let nozzleArea := computeNozzleArea (Inlet.nozzle_diameter_mm inlet) in
  let Vjet :=
    computeInletVelocity (Operation.inflow_Lps operation) nozzleArea
      (Inlet.count inlet) in
  let TOR :=
    computeTurnoverRatio (Operation.fill_event_volume_kL operation)
      volumeForTurnover in
  let Fr := computeFroudeInlet Vjet d_noz_m in
  let dt_range :=
    Rabs (Water.temperature_inflow_max_C water
          - Water.temperature_inflow_min_C water) in
  let dt_diff_max :=
    Rabs (Water.temperature_inflow_max_C water
          - Water.temperature_tank_initial_C water) in
  let dt_diff_min :=
    Rabs (Water.temperature_inflow_min_C water
          - Water.temperature_tank_initial_C water) in
  let dt_vs_tank := Rmax dt_diff_max dt_diff_min in
  let beta := estimateBetaPerC (Water.temperature_tank_initial_C water) in
  (* 3. Richardson calculation *)
  let L_buoyancy :=
    lengthScale (Options.ri_length_scale options) d_noz_m
      (Tank.diameter_m tank) (Tank.water_depth_m tank) in
  let '(Ri, ri_num, ri_den) := richardson Vjet dt_vs_tank L_buoyancy beta in
  let '(Ri, nanFlags) := validateRi Ri in
  let validityFlags := validityFlags ++ nanFlags in
  (* 4. Vertical mixing status *)
  let v_target := v_target options in
  let stableStratLikely :=
    (dt_vs_tank >=? 2.0) && num_gtb Ri (Options.ri_threshold_warn options) in
  let jetPenetrationReach :=
    penetration stableStratLikely (Inlet.elevation_from_floor_m inlet)
      (Tank.water_depth_m tank) in
  let '(verticalStatus, pushed) := momentumCheck Vjet v_target in
  let recs := recs ++ pushed in
  let '(verticalStatus, pushed) :=
    buoyancyCheck jetPenetrationReach Ri (Options.ri_threshold_fail options)
      (Options.ri_threshold_warn options) verticalStatus in
  let recs := recs ++ pushed in
  let '(verticalStatus, pushed) :=
    turnoverCheck TOR (Options.tor_threshold_warn options) verticalStatus in
  let recs := recs ++ pushed in
  (* 5. Horizontal / layout status *)
  let '(hScore, distInOut) := layoutScore tank inlet outlet options in
  let horizontalStatus :=
    layoutStatus hScore (Options.layout_score_fail options)
      (Options.layout_score_warn options) in
  let recs :=
    recs ++ layoutRecs horizontalStatus hScore distInOut
              (Tank.water_depth_m tank) in
  (* 6. Recommendations *)
  let recs :=
    recs ++ nozzleRecs Vjet v_target (Operation.inflow_Lps operation)
              (Inlet.count inlet) in
  let recs :=
    recs ++ lowerInletRecs (Inlet.elevation_from_floor_m inlet)
              (Tank.water_depth_m tank) verticalStatus in
  (* 7. Aggregation *)
  let overallStatus := aggregate verticalStatus horizontalStatus in
  let dominantRisk :=
    classifyRisk overallStatus verticalStatus Vjet v_target Ri
      (Options.ri_threshold_warn options) in
  {| overallStatus := overallStatus;
     verticalStatus := verticalStatus;
     horizontalStatus := horizontalStatus;
     metrics :=
       {| inletVelocity_m_s := Vjet;
          froudeInlet := Fr;
          richardsonNumber := Ri;
          turnoverRatio := TOR;
          jetPenetrationReach := jetPenetrationReach;
          horizontalRiskScore := hScore;
          deltaT := dt_vs_tank;
          tankVolume_geom_m3 := v_geom_m3;
          tankVolume_total_effective_m3 := v_eff_m3;
          deltaT_inlet_vs_tank := dt_vs_tank;
          deltaT_inlet_range := dt_range;
          ri_numerator := ri_num;
          ri_denominator := ri_den;
          ri_lengthScale_m := L_buoyancy;
          beta_per_C := beta |};
     recommendations := recs;
     validityFlags := validityFlags;
     dominantRisk := dominantRisk |}.

Definition createDefaultScenario : Scenario :=
  {| id := "default-1";
     name := "Baseline Scenario";
     tank :=
       {| Tank.shape := cylindrical;
          Tank.diameter_m := 10;
          Tank.water_depth_m := 5;
          Tank.operating_storage_kL := 350;
          Tank.reserve_unusable_kL := 40 |};
     inlet :=
       {| Inlet.count := 1;
          Inlet.elevation_from_floor_m := 0.5;
          Inlet.nozzle_diameter_mm := 150;
          Inlet.orientation := radial;
          Inlet.inclination_deg := 0 |};
     outlet :=
       {| Outlet.elevation_from_floor_m := 0.2;
          Outlet.orientation := opposite |};
     operation :=
       {| Operation.inflow_Lps := 20;
          Operation.fill_event_volume_kL := 100;
          Operation.events_per_day := 1 |};
     water :=
       {| Water.temperature_inflow_min_C := 15;
          Water.temperature_inflow_max_C := 18;
          Water.temperature_tank_initial_C := 22 |};
     options :=
       {| Options.target_mixed_fraction := 0.95;
          Options.conservatism := cons_normal;
          Options.ri_length_scale := depth_quarter;
          Options.target_velocity_m_s := Some 0.8;
          Options.ri_threshold_warn := 1.0;
          Options.ri_threshold_fail := 5.0;
          Options.tor_threshold_warn := 0.3;
          Options.layout_score_warn := 30;
          Options.layout_score_fail := 65;
          Options.risk_vertical_proximity := 25;
          Options.risk_high_elevation := 35;
          Options.risk_orient_radial := 15;
          Options.risk_orient_upward := 5;
          Options.credit_orient_tangential := 10;
          Options.credit_orient_downward := 5;
          Options.credit_outlet_opposite := 5;
          Options.credit_multiple_inlets := 10 |} |}.

(** The two steps the block [buoyancyCheck] makes on the status: the
    stratification escalation, then the Richardson thresholds. *)
Definition penetrationStep (reach : Reach) (verticalStatus : Status) : Status :=
  if negb (Status_eqb verticalStatus FAIL) && Reach_eqb reach upper_layer_only
  then FAIL else verticalStatus.

Definition richardsonStep (Ri : number) (ri_threshold_fail ri_threshold_warn : R)
    (verticalStatus : Status) : Status :=
  if negb (Status_eqb verticalStatus FAIL) then
    if num_gtb Ri ri_threshold_fail then FAIL
    else if num_gtb Ri ri_threshold_warn then WARN
    else verticalStatus
  else verticalStatus.

(** The worse of two statuses. *)
Definition worse (a b : Status) : Status :=
  if (severity a <=? severity b)%nat then b else a.

(** ** Scenarios used below

    Copies of the default scenario with some fields replaced, as the
    sanity checks of the source build them. *)

Definition withNozzleDiameter (d_mm : R) (s : Scenario) : Scenario :=
  {| id := id s; name := name s; tank := tank s;
     inlet :=
       Inlet.mk (Inlet.count (inlet s))
         (Inlet.elevation_from_floor_m (inlet s)) d_mm
         (Inlet.orientation (inlet s)) (Inlet.inclination_deg (inlet s));
     outlet := outlet s; operation := operation s; water := water s;
     options := options s |}.



Definition withTank (t : Tank.t) (s : Scenario) : Scenario :=
  {| id := id s; name := name s; tank := t; inlet := inlet s;
     outlet := outlet s; operation := operation s; water := water s;
     options := options s |}.

(** Sanity check 1 of the source: the nozzle widened to 300 mm. *)
Definition wideNozzleScenario : Scenario :=
  withNozzleDiameter 300 createDefaultScenario.




(** A tank of diameter 2 m and depth 1 m (capacity PI m3), said to store
    3.15 kL, respectively 4 kL. *)
Definition slightlyOverfilledScenario : Scenario :=
  withTank
    {| Tank.shape := cylindrical;
       Tank.diameter_m := 2;
       Tank.water_depth_m := 1;
       Tank.operating_storage_kL := 3.15;
       Tank.reserve_unusable_kL := 0 |}
    createDefaultScenario.

Definition overfilledScenario : Scenario :=
  withTank
    {| Tank.shape := cylindrical;
       Tank.diameter_m := 2;
       Tank.water_depth_m := 1;
       Tank.operating_storage_kL := 4;
       Tank.reserve_unusable_kL := 0 |}
    createDefaultScenario.

(** ** Further scenarios *)

Definition withOptions (o : Options.t) (s : Scenario) : Scenario :=
  {| id := id s; name := name s; tank := tank s; inlet := inlet s;
     outlet := outlet s; operation := operation s; water := water s;
     options := o |}.

Definition withInlet (i : Inlet.t) (s : Scenario) : Scenario :=
  {| id := id s; name := name s; tank := tank s; inlet := i;
     outlet := outlet s; operation := operation s; water := water s;
     options := options s |}.


Definition withTargetVelocity (v : R) (o : Options.t) : Options.t :=
  {| Options.target_mixed_fraction := Options.target_mixed_fraction o;
     Options.conservatism := Options.conservatism o;
     Options.ri_length_scale := Options.ri_length_scale o;
     Options.target_velocity_m_s := Some v;
     Options.ri_threshold_warn := Options.ri_threshold_warn o;
     Options.ri_threshold_fail := Options.ri_threshold_fail o;
     Options.tor_threshold_warn := Options.tor_threshold_warn o;
     Options.layout_score_warn := Options.layout_score_warn o;
     Options.layout_score_fail := Options.layout_score_fail o;
     Options.risk_vertical_proximity := Options.risk_vertical_proximity o;
     Options.risk_high_elevation := Options.risk_high_elevation o;
     Options.risk_orient_radial := Options.risk_orient_radial o;
     Options.risk_orient_upward := Options.risk_orient_upward o;
     Options.credit_orient_tangential := Options.credit_orient_tangential o;
     Options.credit_orient_downward := Options.credit_orient_downward o;
     Options.credit_outlet_opposite := Options.credit_outlet_opposite o;
     Options.credit_multiple_inlets := Options.credit_multiple_inlets o |}.



Definition withOperation (op : Operation.t) (s : Scenario) : Scenario :=
  {| id := id s; name := name s; tank := tank s; inlet := inlet s;
     outlet := outlet s; operation := op; water := water s;
     options := options s |}.

(** The default scenario with the inlet raised above the water, to 6 m,
    and a fill event of 200 kL. *)
Definition raisedInletScenario : Scenario :=
  withOperation
    {| Operation.inflow_Lps := 20;
       Operation.fill_event_volume_kL := 200;
       Operation.events_per_day := 1 |}
    (withInlet
       {| Inlet.count := 1;
          Inlet.elevation_from_floor_m := 6;
          Inlet.nozzle_diameter_mm := 150;
          Inlet.orientation := radial;
          Inlet.inclination_deg := 0 |}
       createDefaultScenario).

(** ** Identifiers of recommendations *)

Definition idsOf (recs : list Recommendation) : list string :=
  map Rec.id recs.

Definition hasId (i : string) (recs : list Recommendation) : bool :=
  existsb (fun rec => String.eqb (Rec.id rec) i) recs.

(** Every identifier the engine can push, in the order of the pushes. *)
Definition allRecommendationIds : list string :=
  [ "err-in-elev"; "err-out-elev"; "vert-mom-fail"; "vert-mom-warn";
    "vert-strat-fail"; "vert-ri-fail"; "vert-ri-warn"; "vert-tor";
    "horiz-main"; "horiz-prox"; "rec-nozzle"; "rec-elev" ]%string.

(** [subseqb l1 l2]: [l1] is [l2] with some elements left out. *)
Fixpoint subseqb (l1 l2 : list string) : bool :=
  match l1, l2 with
  | [], _ => true
  | _ :: _, [] => false
  | x :: xs, y :: ys =>
      if String.eqb x y then subseqb xs ys else subseqb l1 ys
  end.

(** ** The scenario form ([components/ScenarioForm])

    The handlers of the form are functions of the value entered and of the
    scenario shown; each returns the scenario it hands to [onUpdate]. *)

Definition ConservatismLevel_eqb (a b : ConservatismLevel) : bool :=
  match a, b with
  | cons_low, cons_low | cons_normal, cons_normal
  | cons_high, cons_high => true
  | _, _ => false
  end.

(** The velocity preset: the handler of the conservatism selector. *)
Definition onConservatismChange (level : ConservatismLevel)
    (scenario : Scenario) : Scenario :=
  let v := 0.8 in
  let v := if ConservatismLevel_eqb level cons_low then 0.6 else v in
  let v := if ConservatismLevel_eqb level cons_high then 1.0 else v in
  let o := options scenario in
  withOptions
    {| Options.target_mixed_fraction := Options.target_mixed_fraction o;
       Options.conservatism := level;
       Options.ri_length_scale := Options.ri_length_scale o;
       Options.target_velocity_m_s := Some v;
       Options.ri_threshold_warn := Options.ri_threshold_warn o;
       Options.ri_threshold_fail := Options.ri_threshold_fail o;
       Options.tor_threshold_warn := Options.tor_threshold_warn o;
       Options.layout_score_warn := Options.layout_score_warn o;
       Options.layout_score_fail := Options.layout_score_fail o;
       Options.risk_vertical_proximity := Options.risk_vertical_proximity o;
       Options.risk_high_elevation := Options.risk_high_elevation o;
       Options.risk_orient_radial := Options.risk_orient_radial o;
       Options.risk_orient_upward := Options.risk_orient_upward o;
       Options.credit_orient_tangential := Options.credit_orient_tangential o;
       Options.credit_orient_downward := Options.credit_orient_downward o;
       Options.credit_outlet_opposite := Options.credit_outlet_opposite o;
       Options.credit_multiple_inlets := Options.credit_multiple_inlets o |}
    scenario.


(** The three handlers of the tank tab.  [parsed] is what [parseFloat]
    gave for the text of the number input: a number, or [None] for NaN,
    in which case [onUpdate] is not called.  The unusable volume is set to
    the remainder of the geometric volume, printed with two decimals and
    read back. *)





(** ** The results panel ([components/ResultsPanel]) *)




(** ** The operating point chart ([components/OperatingPointChart]) *)

(** The name of a scenario, for use where a record has a field [name] of
    its own. *)
Definition scenarioName (s : Scenario) : string := name s.

Module Chart.







Record Point := mkPoint {
    x : number;
    y : R;
    status : Status;
    isCurrent : bool;
    name : string
}.

Definition points (currentScenario : Scenario) (currentResult : Result)
    (allScenarios : list Scenario) : list Point :=
  map (fun s =>
         let res :=
           if String.eqb (id s) (id currentScenario) then currentResult
           else analyzeScenario s in
         {| x := richardsonNumber (metrics res);
            y := inletVelocity_m_s (metrics res);
            status := overallStatus res;
            isCurrent := String.eqb (id s) (id currentScenario);
            name := scenarioName s |})
      allScenarios.

End Chart.

(** ** The list of scenarios ([App])

    The state of the application is the list of scenarios and the
    identifier of the active one; a handler maps the state it is called in
    to the state it sets.  [Date.now()] and the answer to [confirm] are
    arguments. *)

(** A non-negative integer in a template literal: its decimal digits. *)
Definition decimal (n : N) : string := NilZero.string_of_uint (N.to_uint n).

Definition withIdName (i n : string) (s : Scenario) : Scenario :=
  {| id := i; name := n; tank := tank s; inlet := inlet s;
     outlet := outlet s; operation := operation s; water := water s;
     options := options s |}.

Module App.

Record State := mkState {
    scenarios : list Scenario;
    activeId : string
}.

Definition initialState : State :=
  {| scenarios := [createDefaultScenario];
     activeId := id createDefaultScenario |}.

(** [scenarios.find(s => s.id === activeId) || scenarios[0]]; [None] is
    [undefined]. *)
Definition activeScenario (st : State) : option Scenario :=
  match find (fun s => String.eqb (id s) (activeId st)) (scenarios st) with
  | Some s => Some s
  | None => nth_error (scenarios st) 0
  end.

(** The result shown; evaluating [undefined] throws, which is [None]. *)
Definition result (st : State) : option Result :=
  option_map analyzeScenario (activeScenario st).

Definition handleUpdateScenario (updated : Scenario) (st : State) : State :=
  {| scenarios :=
       map (fun s => if String.eqb (id s) (id updated) then updated else s)
         (scenarios st);
     activeId := activeId st |}.

Definition handleAddScenario (now : N) (st : State) : State :=
  let newS :=
    withIdName ("scenario-" ++ decimal now)%string
      ("New Scenario "
       ++ decimal (N.of_nat (List.length (scenarios st) + 1)%nat))%string
      createDefaultScenario in
  {| scenarios := (scenarios st ++ [newS])%list; activeId := id newS |}.

(** [JSON.parse(JSON.stringify(activeScenario))] is a copy with the same
    fields; of [undefined] it throws, which is [None]. *)
Definition handleDuplicate (now : N) (st : State) : option State :=
  match activeScenario st with
  | None => None
  | Some active =>
      let copy :=
        withIdName ("scenario-" ++ decimal now)%string
          (name active ++ " (Copy)")%string active in
      Some {| scenarios := (scenarios st ++ [copy])%list;
              activeId := id copy |}
  end.

(** What [handleDelete] does: it alerts, leaves the state, sets a new
    state, or throws a TypeError (reading [name] or [id] of
    [undefined]). *)
Inductive Outcome :=
  | Alert (msg : string)
  | NoChange
  | NewState (st : State)
  | Throws.

Definition handleDelete (confirmed : bool) (st : State) : Outcome :=
  if Nat.eqb (List.length (scenarios st)) 1
  then Alert "Cannot delete the last scenario."
  else
    match activeScenario st with
    | None => Throws
    | Some _ =>
        if confirmed then
          let remaining :=
            filter (fun s => negb (String.eqb (id s) (activeId st)))
              (scenarios st) in
          match nth_error remaining (List.length remaining - 1)%nat with
          | None => Throws
          | Some last => NewState {| scenarios := remaining;
                                     activeId := id last |}
          end
        else NoChange
    end.

End App.

(** ** Basic facts *)

Lemma Rltb_true (x y : R) : (x <? y) = true <-> x < y.
Proof. unfold Rltb; destruct (Rlt_dec x y); split; (easy || lra). Qed.

Lemma Rltb_false (x y : R) : (x <? y) = false <-> y <= x.
Proof. unfold Rltb; destruct (Rlt_dec x y); split; (easy || lra). Qed.

Lemma Rleb_true (x y : R) : (x <=? y) = true <-> x <= y.
Proof. unfold Rleb; destruct (Rle_dec x y); split; (easy || lra). Qed.

Lemma Rleb_false (x y : R) : (x <=? y) = false <-> y < x.
Proof. unfold Rleb; destruct (Rle_dec x y); split; (easy || lra). Qed.

(** Decide every comparison in sight. *)
Ltac cmp :=
  unfold Rgeb, Rgtb, Rleb, Rltb in *;
  repeat match goal with
         | |- context [Rlt_dec ?a ?b] => destruct (Rlt_dec a b)
         | |- context [Rle_dec ?a ?b] => destruct (Rle_dec a b)
         | H : context [Rlt_dec ?a ?b] |- _ => destruct (Rlt_dec a b)
         | H : context [Rle_dec ?a ?b] |- _ => destruct (Rle_dec a b)
         end;
  cbv beta iota in *.

(** Open the engine: name the results of the blocks it calls. *)
Ltac open_engine :=
  unfold analyzeScenario;
  repeat match goal with
         | |- context [let '(_, _) := ?e in _] => destruct e eqn:?
         end;
  cbn [overallStatus verticalStatus horizontalStatus metrics recommendations
       validityFlags dominantRisk inletVelocity_m_s froudeInlet
       richardsonNumber turnoverRatio jetPenetrationReach horizontalRiskScore
       deltaT tankVolume_geom_m3 tankVolume_total_effective_m3
       deltaT_inlet_vs_tank deltaT_inlet_range ri_numerator ri_denominator
       ri_lengthScale_m beta_per_C].

(** Use the named results of the blocks where they occur again. *)
Ltac recall :=
  cbn [fst snd];
  repeat (match goal with
          | H : ?e = (_, _) |- context [?e] => rewrite H
          end; cbn [fst snd]).

Lemma PI_bounds : 3.14 < PI < 3.15.
Proof.
  pose proof (PI_2_3_7_ineq 1) as [Hlo Hhi].
  unfold sum_f_R0, tg_alt, PI_2_3_7_tg, Ratan_seq in Hlo, Hhi.
  simpl in Hlo, Hhi.
  split; lra.
Qed.

(** ** What the result holds, field by field *)

Lemma analyze_overall (s : Scenario) :
  overallStatus (analyzeScenario s)
  = aggregate (verticalStatus (analyzeScenario s))
      (horizontalStatus (analyzeScenario s)).
Proof. open_engine. reflexivity. Qed.

Lemma analyze_hScore (s : Scenario) :
  horizontalRiskScore (metrics (analyzeScenario s))
  = fst (layoutScore (tank s) (inlet s) (outlet s) (options s)).
Proof. open_engine. reflexivity. Qed.

Lemma analyze_hStatus (s : Scenario) :
  horizontalStatus (analyzeScenario s)
  = layoutStatus (horizontalRiskScore (metrics (analyzeScenario s)))
      (Options.layout_score_fail (options s))
      (Options.layout_score_warn (options s)).
Proof. open_engine. reflexivity. Qed.

Lemma analyze_Vjet (s : Scenario) :
  inletVelocity_m_s (metrics (analyzeScenario s))
  = computeInletVelocity (Operation.inflow_Lps (operation s))
      (computeNozzleArea (Inlet.nozzle_diameter_mm (inlet s)))
      (Inlet.count (inlet s)).
Proof. open_engine. reflexivity. Qed.

Lemma analyze_dT (s : Scenario) :
  deltaT_inlet_vs_tank (metrics (analyzeScenario s))
  = Rmax
      (Rabs (Water.temperature_inflow_max_C (water s)
             - Water.temperature_tank_initial_C (water s)))
      (Rabs (Water.temperature_inflow_min_C (water s)
             - Water.temperature_tank_initial_C (water s))).
Proof. open_engine. reflexivity. Qed.

Lemma analyze_L (s : Scenario) :
  ri_lengthScale_m (metrics (analyzeScenario s))
  = lengthScale (Options.ri_length_scale (options s))
      (Inlet.nozzle_diameter_mm (inlet s) / 1000)
      (Tank.diameter_m (tank s)) (Tank.water_depth_m (tank s)).
Proof. open_engine. reflexivity. Qed.

Lemma analyze_beta (s : Scenario) :
  beta_per_C (metrics (analyzeScenario s)) = 2.1e-4.
Proof. open_engine. reflexivity. Qed.

(** The Richardson terms of the result are those of [richardson] on the
    velocity, temperature difference, length scale and coefficient of the
    result, passed through the NaN check. *)
Lemma analyze_richardson (s : Scenario) :
  let m := metrics (analyzeScenario s) in
  let ri :=
    richardson (inletVelocity_m_s m) (deltaT_inlet_vs_tank m)
      (ri_lengthScale_m m) (beta_per_C m) in
  richardsonNumber m = fst (validateRi (fst (fst ri)))
  /\ ri_numerator m = snd (fst ri)
  /\ ri_denominator m = snd ri.
Proof.
  intros m ri; subst ri m.
  rewrite analyze_Vjet, analyze_dT, analyze_L, analyze_beta.
  open_engine. unfold estimateBetaPerC in *. recall. auto.
Qed.

Lemma analyze_Ri (s : Scenario) :
  richardsonNumber (metrics (analyzeScenario s))
  = fst (validateRi (fst (fst
      (richardson
         (computeInletVelocity (Operation.inflow_Lps (operation s))
            (computeNozzleArea (Inlet.nozzle_diameter_mm (inlet s)))
            (Inlet.count (inlet s)))
         (Rmax
            (Rabs (Water.temperature_inflow_max_C (water s)
                   - Water.temperature_tank_initial_C (water s)))
            (Rabs (Water.temperature_inflow_min_C (water s)
                   - Water.temperature_tank_initial_C (water s))))
         (lengthScale (Options.ri_length_scale (options s))
            (Inlet.nozzle_diameter_mm (inlet s) / 1000)
            (Tank.diameter_m (tank s)) (Tank.water_depth_m (tank s)))
         2.1e-4)))).
Proof.
  destruct (analyze_richardson s) as [H _]. cbv zeta in H.
  rewrite analyze_Vjet, analyze_dT, analyze_L, analyze_beta in H. exact H.
Qed.

Lemma analyze_volumes (s : Scenario) :
  tankVolume_geom_m3 (metrics (analyzeScenario s))
  = computeTankVolumeCyl (Tank.diameter_m (tank s))
      (Tank.water_depth_m (tank s))
  /\ tankVolume_total_effective_m3 (metrics (analyzeScenario s))
     = Rmax 0 (Tank.operating_storage_kL (tank s))
       + Rmax 0 (Tank.reserve_unusable_kL (tank s)).
Proof. open_engine. auto. Qed.

Lemma analyze_TOR (s : Scenario) :
  turnoverRatio (metrics (analyzeScenario s))
  = computeTurnoverRatio (Operation.fill_event_volume_kL (operation s))
      (let v_eff_m3 :=
         Rmax 0 (Tank.operating_storage_kL (tank s))
         + Rmax 0 (Tank.reserve_unusable_kL (tank s)) in
       if v_eff_m3 >? 0 then v_eff_m3
       else computeTankVolumeCyl (Tank.diameter_m (tank s))
              (Tank.water_depth_m (tank s))).
Proof. open_engine. reflexivity. Qed.

(** Rewrite the metrics of a result into the expressions that define them. *)
Ltac to_inputs :=
  rewrite ?analyze_Vjet, ?analyze_dT, ?analyze_L, ?analyze_beta, ?analyze_Ri,
    ?analyze_TOR, ?analyze_hScore.

Ltac by_engine :=
  to_inputs; open_engine; unfold estimateBetaPerC in *; recall;
  try reflexivity.

Lemma analyze_reach (s : Scenario) :
  let m := metrics (analyzeScenario s) in
  jetPenetrationReach m
  = penetration
      ((deltaT_inlet_vs_tank m >=? 2.0)
       && num_gtb (richardsonNumber m) (Options.ri_threshold_warn (options s)))
      (Inlet.elevation_from_floor_m (inlet s)) (Tank.water_depth_m (tank s)).
Proof. cbv zeta. by_engine. Qed.

(** The vertical status is the status the three rule blocks leave, run in
    the order momentum, buoyancy, turnover. *)
Lemma analyze_vertical (s : Scenario) :
  let m := metrics (analyzeScenario s) in
  let o := options s in
  verticalStatus (analyzeScenario s)
  = fst (turnoverCheck (turnoverRatio m) (Options.tor_threshold_warn o)
      (fst (buoyancyCheck (jetPenetrationReach m) (richardsonNumber m)
         (Options.ri_threshold_fail o) (Options.ri_threshold_warn o)
         (fst (momentumCheck (inletVelocity_m_s m)
                 (v_target o)))))).
Proof. cbv zeta. rewrite analyze_reach. cbv zeta. by_engine. Qed.

Lemma analyze_risk (s : Scenario) :
  let r := analyzeScenario s in
  dominantRisk r
  = classifyRisk (overallStatus r) (verticalStatus r)
      (inletVelocity_m_s (metrics r)) (v_target (options s))
      (richardsonNumber (metrics r)) (Options.ri_threshold_warn (options s)).
Proof. cbv zeta. by_engine. Qed.

(** The recommendations, in the order they are pushed. *)
Lemma analyze_recs (s : Scenario) :
  let r := analyzeScenario s in
  let m := metrics r in
  let o := options s in
  let depth := Tank.water_depth_m (tank s) in
  let mom :=
    momentumCheck (inletVelocity_m_s m) (v_target o) in
  let buo :=
    buoyancyCheck (jetPenetrationReach m) (richardsonNumber m)
      (Options.ri_threshold_fail o) (Options.ri_threshold_warn o) (fst mom) in
  let tor :=
    turnoverCheck (turnoverRatio m) (Options.tor_threshold_warn o) (fst buo) in
  recommendations r
  = elevationRecs (Inlet.elevation_from_floor_m (inlet s))
      (Outlet.elevation_from_floor_m (outlet s)) depth
    ++ snd mom ++ snd buo ++ snd tor
    ++ layoutRecs (horizontalStatus r) (horizontalRiskScore m)
         (snd (layoutScore (tank s) (inlet s) (outlet s) o)) depth
    ++ nozzleRecs (inletVelocity_m_s m) (v_target o)
         (Operation.inflow_Lps (operation s)) (Inlet.count (inlet s))
    ++ lowerInletRecs (Inlet.elevation_from_floor_m (inlet s)) depth
         (verticalStatus r).
Proof.
  cbv zeta. rewrite analyze_reach. cbv zeta. by_engine.
  rewrite <- !app_assoc. reflexivity.
Qed.

(** The validity flags, in the order they are pushed. *)
Lemma analyze_flags (s : Scenario) :
  let m := metrics (analyzeScenario s) in
  validityFlags (analyzeScenario s)
  = initialFlags
    ++ volumeFlags (tankVolume_total_effective_m3 m) (tankVolume_geom_m3 m)
    ++ snd (validateRi (fst (fst
         (richardson (inletVelocity_m_s m) (deltaT_inlet_vs_tank m)
            (ri_lengthScale_m m) (beta_per_C m))))).
Proof.
  cbv zeta. destruct (analyze_volumes s) as [-> ->].
  by_engine.
Qed.

(** ** Aggregation *)

Lemma aggregate_worse (v h : Status) : aggregate v h = worse v h.
Proof. destruct v, h; reflexivity. Qed.

(** C2. For every scenario the overall status is FAIL exactly when the
    vertical or the horizontal status is FAIL, PASS exactly when both are
    PASS, and WARN in every other case: it is the worse of the two axis
    statuses under PASS < WARN < FAIL. *)
Theorem overall_status_is_worse_axis (s : Scenario) :
  let r := analyzeScenario s in
  (overallStatus r = FAIL
   <-> verticalStatus r = FAIL \/ horizontalStatus r = FAIL)
  /\ (overallStatus r = PASS
      <-> verticalStatus r = PASS /\ horizontalStatus r = PASS)
  /\ (overallStatus r = WARN
      <-> ~ (verticalStatus r = FAIL \/ horizontalStatus r = FAIL)
          /\ ~ (verticalStatus r = PASS /\ horizontalStatus r = PASS))
  /\ overallStatus r = worse (verticalStatus r) (horizontalStatus r).
Proof.
  cbv zeta. rewrite analyze_overall, aggregate_worse.
  destruct (verticalStatus (analyzeScenario s)),
    (horizontalStatus (analyzeScenario s)); cbn;
    repeat split; intros; try tauto; try discriminate;
    intuition discriminate.
Qed.

(** ** The layout score *)



(** ** The vertical rule chain *)

Lemma buoyancyCheck_steps (reach : Reach) (Ri : number) (f w : R)
    (vs : Status) :
  fst (buoyancyCheck reach Ri f w vs)
  = richardsonStep Ri f w (penetrationStep reach vs).
Proof.
  unfold buoyancyCheck, richardsonStep, penetrationStep.
  destruct vs, reach; cbn;
    destruct (num_gtb Ri f), (num_gtb Ri w); reflexivity.
Qed.

Lemma momentumCheck_raises (Vjet v_target : R) :
  Status_le PASS (fst (momentumCheck Vjet v_target)).
Proof. unfold Status_le; cbn; lia. Qed.

Lemma penetrationStep_raises (reach : Reach) (vs : Status) :
  Status_le vs (penetrationStep reach vs).
Proof. destruct vs, reach; unfold Status_le; cbn; lia. Qed.

Lemma richardsonStep_raises (Ri : number) (f w : R) (vs : Status) :
  Status_le vs (richardsonStep Ri f w vs).
Proof.
  unfold richardsonStep, Status_le.
  destruct vs; cbn; destruct (num_gtb Ri f), (num_gtb Ri w); cbn; lia.
Qed.

Lemma richardsonStep_skipped (Ri : number) (f w : R) :
  richardsonStep Ri f w FAIL = FAIL.
Proof. reflexivity. Qed.

Lemma turnoverCheck_raises (TOR thr : R) (vs : Status) :
  Status_le vs (fst (turnoverCheck TOR thr vs))
  /\ (fst (turnoverCheck TOR thr vs) = vs
      \/ vs = PASS /\ fst (turnoverCheck TOR thr vs) = WARN).
Proof.
  unfold turnoverCheck, Status_le.
  destruct vs, (TOR <? thr); cbn; auto with arith.
Qed.

(** C3. For every scenario the vertical status is the outcome of the rule
    chain momentum, penetration, Richardson thresholds, turnover, started
    at PASS (penetration and Richardson thresholds being the two steps of
    the block guarded by [verticalStatus !== 'FAIL']), and the severity
    never decreases along it under PASS < WARN < FAIL: each check leaves
    the status it receives or raises it; the Richardson check leaves a FAIL
    as it is, and the turnover check changes nothing but a PASS, into
    WARN. *)
Theorem vertical_chain_monotone (s : Scenario) :
  let m := metrics (analyzeScenario s) in
  let o := options s in
  let v1 :=
    fst (momentumCheck (inletVelocity_m_s m) (v_target o)) in
  let v2 := penetrationStep (jetPenetrationReach m) v1 in
  let v3 :=
    richardsonStep (richardsonNumber m) (Options.ri_threshold_fail o)
      (Options.ri_threshold_warn o) v2 in
  let v4 :=
    fst (turnoverCheck (turnoverRatio m) (Options.tor_threshold_warn o) v3) in
  verticalStatus (analyzeScenario s) = v4
  /\ fst (buoyancyCheck (jetPenetrationReach m) (richardsonNumber m)
            (Options.ri_threshold_fail o) (Options.ri_threshold_warn o) v1)
     = v3
  /\ Status_le PASS v1 /\ Status_le v1 v2 /\ Status_le v2 v3
  /\ Status_le v3 v4
  /\ (v2 <> FAIL \/ v3 = FAIL)
  /\ (v4 = v3 \/ v3 = PASS /\ v4 = WARN).
Proof.
  intros m o v1 v2 v3 v4.
  split.
  { pose proof (analyze_vertical s) as H. cbv zeta in H.
    rewrite buoyancyCheck_steps in H. exact H. }
  split; [apply buoyancyCheck_steps|].
  split; [apply momentumCheck_raises|].
  split; [apply penetrationStep_raises|].
  split; [apply richardsonStep_raises|].
  split; [apply turnoverCheck_raises|].
  split; [|apply turnoverCheck_raises].
  clear v4. subst v3. generalize v2.
  intros [ | | ]; [left; discriminate | left; discriminate | right].
  apply richardsonStep_skipped.
Qed.

(** ** The dominant risk *)

(** C8. For every scenario the dominant risk is [none] when the overall
    status is PASS.  Otherwise, when the vertical status is WARN or FAIL,
    it is [insufficient_momentum] if the inlet velocity is below half the
    target velocity, else [buoyancy] if the Richardson number exceeds the
    warn threshold, else [insufficient_momentum]; and when the vertical
    status is PASS it is [short_circuit]. *)
Theorem dominant_risk_classification (s : Scenario) :
  let r := analyzeScenario s in
  let V := inletVelocity_m_s (metrics r) in
  let Ri := richardsonNumber (metrics r) in
  let v_target := v_target (options s) in
  let warn := Options.ri_threshold_warn (options s) in
  (overallStatus r = PASS -> dominantRisk r = none)
  /\ (overallStatus r <> PASS ->
      verticalStatus r = WARN \/ verticalStatus r = FAIL ->
      (V < 0.5 * v_target -> dominantRisk r = insufficient_momentum)
      /\ (~ V < 0.5 * v_target -> num_gtb Ri warn = true ->
          dominantRisk r = buoyancy)
      /\ (~ V < 0.5 * v_target -> num_gtb Ri warn = false ->
          dominantRisk r = insufficient_momentum))
  /\ (overallStatus r <> PASS -> verticalStatus r = PASS ->
      dominantRisk r = short_circuit).
Proof.
  intros r V Ri v_target warn.
  pose proof (analyze_risk s) as H. cbv zeta in H.
  fold r in H. fold V Ri v_target warn in H. rewrite H.
  unfold classifyRisk.
  destruct (overallStatus r), (verticalStatus r); cbn;
    repeat split; intros; try congruence; try tauto;
    try (destruct H1; discriminate).
  all: cmp; try lra;
    match goal with
    | H : num_gtb _ _ = _ |- _ => rewrite H
    | _ => idtac
    end; try reflexivity; try tauto.
Qed.

(** ** Inlet velocity *)

Lemma lt_div (a b c : R) : 0 < c -> a * c < b -> a < b / c.
Proof.
  intros Hc H. apply Rmult_lt_reg_r with c; [exact Hc|].
  unfold Rdiv. rewrite Rmult_assoc, Rinv_l; lra.
Qed.

Lemma div_lt (a b c : R) : 0 < c -> a < b * c -> a / c < b.
Proof.
  intros Hc H. apply Rmult_lt_reg_r with c; [exact Hc|].
  unfold Rdiv. rewrite Rmult_assoc, Rinv_l; lra.
Qed.

Lemma computeNozzleArea_pos (d_mm : R) : 0 < d_mm -> 0 < computeNozzleArea d_mm.
Proof.
  intros Hd. unfold computeNozzleArea. cbv zeta.
  apply Rmult_lt_0_compat; [apply PI_RGT_0 | apply pow_lt; lra].
Qed.


(** Past its guard the velocity is the flow per inlet over the area. *)
Lemma computeInletVelocity_guarded (flow_Lps area_m2 count : R) :
  0 < area_m2 -> 0 < count ->
  computeInletVelocity flow_Lps area_m2 count
  = flow_Lps / 1000 / count / area_m2.
Proof.
  intros Ha Hc. unfold computeInletVelocity. cmp; try reflexivity; lra.
Qed.






(** ** The Richardson number *)

Lemma lengthScale_floor (policy : RiLengthScale) (d_noz_m diameter depth : R) :
  0.05 <= lengthScale policy d_noz_m diameter depth.
Proof. unfold lengthScale. cbv zeta. apply Rmax_r. Qed.



Lemma richardson_ratio (Vjet dT L beta : R) :
  0.0001 < Vjet -> 0.01 <= dT ->
  richardson Vjet dT L beta
  = (Finite (G * beta * dT * L / Vjet ^ 2), G * beta * dT * L, Vjet ^ 2).
Proof. intros HV HT. unfold richardson. cmp; try reflexivity; lra. Qed.

(** [richardson] never yields NaN, so the NaN check keeps its number. *)
Lemma richardson_not_NaN (Vjet dT L beta : R) :
  validateRi (fst (fst (richardson Vjet dT L beta)))
  = (fst (fst (richardson Vjet dT L beta)), []).
Proof. unfold richardson. cmp; reflexivity. Qed.

Lemma analyze_Ri_metrics (s : Scenario) :
  let m := metrics (analyzeScenario s) in
  richardsonNumber m
  = fst (fst (richardson (inletVelocity_m_s m) (deltaT_inlet_vs_tank m)
                (ri_lengthScale_m m) (beta_per_C m))).
Proof.
  cbv zeta. destruct (analyze_richardson s) as [H _]. cbv zeta in H.
  rewrite H, richardson_not_NaN. reflexivity.
Qed.


(** Evaluate [Rmax], [Rmin] and [Rabs] on explicit numbers. *)
Ltac rcases :=
  repeat match goal with
         | |- context [Rabs ?a] =>
             first [ rewrite (Rabs_pos_eq a) by lra
                   | rewrite (Rabs_left1 a) by lra ]
         | |- context [Rmax ?a ?b] =>
             first [ rewrite (Rmax_left a b) by lra
                   | rewrite (Rmax_right a b) by lra ]
         | |- context [Rmin ?a ?b] =>
             first [ rewrite (Rmin_left a b) by lra
                   | rewrite (Rmin_right a b) by lra ]
         end;
  try lra.

(** The scenario example of the specification: 20 L/s through one 150 mm
    nozzle is about 1.13 m/s. *)
Lemma default_velocity :
  1.12 < inletVelocity_m_s (metrics (analyzeScenario createDefaultScenario))
       < 1.14.
Proof.
  pose proof PI_bounds as HPI.
  rewrite analyze_Vjet. cbn.
  assert (0 < computeNozzleArea 150) as Ha by (apply computeNozzleArea_pos; lra).
  rewrite computeInletVelocity_guarded by lra.
  unfold computeNozzleArea in *. cbv zeta in *.
  split; [apply lt_div | apply div_lt]; lra.
Qed.


Lemma default_deltaT :
  deltaT_inlet_vs_tank (metrics (analyzeScenario createDefaultScenario)) = 7.
Proof. rewrite analyze_dT. cbn. rcases. Qed.








(** ** Validity flags *)

Lemma analyze_flags_volumes (s : Scenario) :
  validityFlags (analyzeScenario s)
  = initialFlags
    ++ volumeFlags
         (Rmax 0 (Tank.operating_storage_kL (tank s))
          + Rmax 0 (Tank.reserve_unusable_kL (tank s)))
         (computeTankVolumeCyl (Tank.diameter_m (tank s))
            (Tank.water_depth_m (tank s))).
Proof.
  pose proof (analyze_flags s) as H. cbv zeta in H.
  rewrite richardson_not_NaN in H. cbn [snd] in H. rewrite app_nil_r in H.
  destruct (analyze_volumes s) as [Hg He]. rewrite Hg, He in H. exact H.
Qed.

(** The flag is pushed only past the tolerance of one percent. *)
Lemma volume_flag_only_beyond_tolerance (s : Scenario) (a b : R) :
  In (flagVolumesExceed a b) (validityFlags (analyzeScenario s)) ->
  Rmax 0 (Tank.operating_storage_kL (tank s))
  + Rmax 0 (Tank.reserve_unusable_kL (tank s))
  > computeTankVolumeCyl (Tank.diameter_m (tank s))
      (Tank.water_depth_m (tank s)) * 1.01.
Proof.
  rewrite analyze_flags_volumes. intros H.
  apply in_app_or in H. destruct H as [H | H].
  - unfold initialFlags, flagVolumesExceed in H. cbn in H.
    intuition discriminate.
  - unfold volumeFlags, flagVolumesExceed, flagNoStorage in H.
    apply in_app_or in H. destruct H as [H | H]; revert H; cmp; cbn;
      intros H; try lra; intuition discriminate.
Qed.

(** C7, as amended.  Every scenario is evaluated to a result, and when the
    effective volume max(0, operating) + max(0, reserve) exceeds 1.01 times
    the geometric volume PI * diameter^2 / 4 * depth, the validity flags of
    the result contain the advisory that the specified volumes exceed the
    geometric capacity, formatted from these two volumes. *)
Theorem volume_excess_flagged (s : Scenario) :
  let v_eff_m3 :=
    Rmax 0 (Tank.operating_storage_kL (tank s))
    + Rmax 0 (Tank.reserve_unusable_kL (tank s)) in
  let v_geom_m3 :=
    PI * Tank.diameter_m (tank s) ^ 2 / 4 * Tank.water_depth_m (tank s) in
  v_eff_m3 > v_geom_m3 * 1.01 ->
  exists r : Result,
    analyzeScenario s = r
    /\ In (flagVolumesExceed v_eff_m3 v_geom_m3) (validityFlags r).
Proof.
  intros v_eff_m3 v_geom_m3 H. exists (analyzeScenario s). split; [reflexivity|].
  rewrite analyze_flags_volumes. apply in_or_app. right.
  unfold volumeFlags. apply in_or_app. left.
  fold v_eff_m3. change (computeTankVolumeCyl _ _) with v_geom_m3.
  apply Rltb_true in H. unfold Rgtb. rewrite H. left. reflexivity.
Qed.

Lemma volume_excess_flagged_witness :
  exists r : Result,
    analyzeScenario overfilledScenario = r
    /\ In (flagVolumesExceed (Rmax 0 4 + Rmax 0 0) (PI * 2 ^ 2 / 4 * 1))
         (validityFlags r).
Proof.
  apply (volume_excess_flagged overfilledScenario).
  cbn. pose proof PI_bounds. rcases.
Defined.

(** C7 as stated fails within the tolerance: a tank of diameter 2 m and
    depth 1 m holds PI < 3.15 m3, yet operating 3.15 kL and reserve 0 kL
    stay below 1.01 * PI and no flag about the capacity is pushed. *)
Lemma volume_excess_within_tolerance_not_flagged :
  let t := tank slightlyOverfilledScenario in
  Tank.operating_storage_kL t + Tank.reserve_unusable_kL t
  > PI * Tank.diameter_m t ^ 2 / 4 * Tank.water_depth_m t
  /\ ~ exists a b : R,
         In (flagVolumesExceed a b)
           (validityFlags (analyzeScenario slightlyOverfilledScenario)).
Proof.
  pose proof PI_bounds as HPI. cbv zeta. split.
  - cbn. lra.
  - intros (a & b & H). apply volume_flag_only_beyond_tolerance in H.
    revert H. cbn. unfold computeTankVolumeCyl. rcases.
Qed.

(** ** Recommendations *)


Lemma wideNozzle_velocity :
  0.28 < inletVelocity_m_s (metrics (analyzeScenario wideNozzleScenario))
       < 0.29.
Proof.
  pose proof PI_bounds as HPI.
  rewrite analyze_Vjet. cbn.
  assert (0 < computeNozzleArea 300) as Ha by (apply computeNozzleArea_pos; lra).
  rewrite computeInletVelocity_guarded by lra.
  unfold computeNozzleArea in *. cbv zeta in *.
  split; [apply lt_div | apply div_lt]; lra.
Qed.


(** ** The stratification escalation *)

(** Settle which recommendations a block pushes and compare identifiers. *)
Ltac ids :=
  repeat match goal with
         | |- context [if ?b then _ else _] => destruct b
         end;
  cbn; intros rec H;
  repeat (destruct H as [H | H]; [subst rec; cbn; discriminate|]);
  contradiction.








(** Without a stable stratification the jet reaches the bottom. *)
Lemma reach_bottom_unless_stable (s : Scenario) :
  let m := metrics (analyzeScenario s) in
  deltaT_inlet_vs_tank m < 2
  \/ num_gtb (richardsonNumber m) (Options.ri_threshold_warn (options s))
     = false ->
  jetPenetrationReach m = bottom.
Proof.
  intros m H. unfold m. rewrite analyze_reach. cbv zeta. fold m.
  replace ((deltaT_inlet_vs_tank m >=? 2.0)
           && num_gtb (richardsonNumber m)
                (Options.ri_threshold_warn (options s)))%bool with false.
  - reflexivity.
  - symmetry. apply andb_false_iff. destruct H as [H | H].
    + left. apply Rleb_false. lra.
    + right. exact H.
Qed.



(** ** The scenario examples of the specification *)

(** Settle comparisons between explicit numbers. *)
Ltac decide_cmp :=
  unfold Rgeb, Rgtb;
  repeat match goal with
         | |- context [Rltb ?a ?b] =>
             first [ rewrite (proj2 (Rltb_true a b)) by lra
                   | rewrite (proj2 (Rltb_false a b)) by lra ]
         | |- context [Rleb ?a ?b] =>
             first [ rewrite (proj2 (Rleb_true a b)) by lra
                   | rewrite (proj2 (Rleb_false a b)) by lra ]
         end.

Lemma default_lengthScale :
  ri_lengthScale_m (metrics (analyzeScenario createDefaultScenario)) = 1.25.
Proof. rewrite analyze_L. cbn. unfold lengthScale. rcases. Qed.

Lemma default_Ri :
  exists ri : R,
    richardsonNumber (metrics (analyzeScenario createDefaultScenario))
    = Finite ri /\ 0.0138 < ri < 0.0144.
Proof.
  pose proof default_velocity as HV.
  rewrite analyze_Ri_metrics, default_deltaT, default_lengthScale, analyze_beta.
  set (V := inletVelocity_m_s _) in *.
  rewrite richardson_ratio by lra. cbn [fst].
  eexists; split; [reflexivity|].
  assert (1.2544 < V ^ 2 < 1.2996) by nra.
  unfold G. split; [apply lt_div | apply div_lt]; lra.
Qed.

Lemma default_TOR :
  turnoverRatio (metrics (analyzeScenario createDefaultScenario)) = 100 / 390.
Proof.
  rewrite analyze_TOR. cbn.
  replace (Rmax 0 350 + Rmax 0 40) with 390 by rcases.
  unfold computeTurnoverRatio. decide_cmp. reflexivity.
Qed.

Lemma default_hScore :
  horizontalRiskScore (metrics (analyzeScenario createDefaultScenario)) = 35.
Proof.
  rewrite analyze_hScore. unfold layoutScore. cbn.
  replace (Rabs (0.5 - 0.2)) with 0.3 by rcases.
  decide_cmp. cbn. rcases.
Qed.

(** The default scenario: the jet has momentum (about 1.13 m/s against the
    target 0.8 m/s) and buoyancy is weak, but one fill turns over 100/390
    of the volume, below 30 percent, and inlet and outlet are close. *)
Example default_result :
  let r := analyzeScenario createDefaultScenario in
  jetPenetrationReach (metrics r) = bottom
  /\ verticalStatus r = WARN
  /\ horizontalStatus r = WARN
  /\ overallStatus r = WARN
  /\ dominantRisk r = insufficient_momentum
  /\ map Rec.id (recommendations r)
     = ["vert-tor"; "horiz-main"; "horiz-prox"]%string.
Proof.
  cbv zeta.
  pose proof default_velocity as HV.
  destruct default_Ri as (ri & HRi & Hri).
  assert (jetPenetrationReach (metrics (analyzeScenario createDefaultScenario))
          = bottom) as Hreach.
  { apply (reach_bottom_unless_stable createDefaultScenario).
    right. rewrite HRi. cbn. decide_cmp. reflexivity. }
  assert (verticalStatus (analyzeScenario createDefaultScenario) = WARN) as Hv.
  { rewrite analyze_vertical. cbv zeta.
    rewrite Hreach, HRi, default_TOR.
    set (V := inletVelocity_m_s _) in *. cbn.
    unfold momentumCheck. decide_cmp. cbn.
    unfold turnoverCheck. decide_cmp. reflexivity. }
  assert (horizontalStatus (analyzeScenario createDefaultScenario) = WARN) as Hh.
  { rewrite analyze_hStatus, default_hScore. cbn. unfold layoutStatus.
    decide_cmp. reflexivity. }
  split; [exact Hreach|]. split; [exact Hv|]. split; [exact Hh|].
  split; [rewrite analyze_overall, Hv, Hh; reflexivity|].
  split.
  { rewrite analyze_risk. cbv zeta. rewrite analyze_overall, Hv, Hh, HRi.
    set (V := inletVelocity_m_s _) in *. cbn. decide_cmp. reflexivity. }
  rewrite analyze_recs. cbv zeta.
  rewrite Hreach, HRi, default_TOR, Hv, Hh, default_hScore.
  set (V := inletVelocity_m_s _) in *. cbn.
  unfold elevationRecs, momentumCheck, nozzleRecs, lowerInletRecs.
  decide_cmp. cbn. decide_cmp. cbn. decide_cmp. cbn.
  replace (Rabs (0.5 - 0.2)) with 0.3 by rcases.
  unfold turnoverCheck. decide_cmp. reflexivity.
Qed.

Lemma buoyancyCheck_FAIL (reach : Reach) (Ri : number) (f w : R) :
  buoyancyCheck reach Ri f w FAIL = (FAIL, []).
Proof. reflexivity. Qed.

Lemma turnoverCheck_FAIL (TOR thr : R) :
  turnoverCheck TOR thr FAIL = (FAIL, []).
Proof. unfold turnoverCheck. destruct (TOR <? thr); reflexivity. Qed.

(** The same scenario with the nozzle widened to 300 mm: about 0.28 m/s,
    below half the target, so the momentum rule fails the vertical axis
    and the nozzle-resize recommendation follows. *)
Example wideNozzle_result :
  let r := analyzeScenario wideNozzleScenario in
  verticalStatus r = FAIL
  /\ overallStatus r = FAIL
  /\ dominantRisk r = insufficient_momentum
  /\ map Rec.id (recommendations r)
     = ["vert-mom-fail"; "horiz-main"; "horiz-prox"; "rec-nozzle"]%string.
Proof.
  cbv zeta.
  pose proof wideNozzle_velocity as HV.
  assert (verticalStatus (analyzeScenario wideNozzleScenario) = FAIL) as Hv.
  { rewrite analyze_vertical. cbv zeta.
    set (V := inletVelocity_m_s _) in *. cbn [options wideNozzleScenario
      withNozzleDiameter createDefaultScenario v_target
      Options.target_velocity_m_s].
    unfold momentumCheck. decide_cmp. cbn [fst].
    rewrite buoyancyCheck_FAIL. cbn [fst]. rewrite turnoverCheck_FAIL.
    reflexivity. }
  assert (horizontalRiskScore (metrics (analyzeScenario wideNozzleScenario))
          = 35) as Hs.
  { rewrite analyze_hScore. exact (eq_trans (eq_sym (analyze_hScore _))
      default_hScore). }
  assert (horizontalStatus (analyzeScenario wideNozzleScenario) = WARN) as Hh.
  { rewrite analyze_hStatus, Hs. cbn. unfold layoutStatus.
    decide_cmp. reflexivity. }
  split; [exact Hv|].
  split; [rewrite analyze_overall, Hv, Hh; reflexivity|].
  split.
  { rewrite analyze_risk. cbv zeta. rewrite analyze_overall, Hv, Hh.
    set (V := inletVelocity_m_s _) in *. cbn. decide_cmp. reflexivity. }
  rewrite analyze_recs. cbv zeta. rewrite Hv, Hh, Hs.
  set (V := inletVelocity_m_s _) in *.
  cbn [options wideNozzleScenario withNozzleDiameter createDefaultScenario
       v_target Options.target_velocity_m_s Options.ri_threshold_fail
       Options.ri_threshold_warn Options.tor_threshold_warn inlet outlet tank
       operation Inlet.elevation_from_floor_m Outlet.elevation_from_floor_m
       Tank.water_depth_m Operation.inflow_Lps Inlet.count].
  unfold momentumCheck. decide_cmp. cbn [fst snd].
  rewrite buoyancyCheck_FAIL. cbn [fst snd]. rewrite turnoverCheck_FAIL.
  unfold elevationRecs, nozzleRecs, lowerInletRecs, layoutRecs, layoutScore.
  cbn [options wideNozzleScenario withNozzleDiameter createDefaultScenario
       inlet outlet tank Inlet.elevation_from_floor_m
       Outlet.elevation_from_floor_m Tank.water_depth_m snd].
  replace (Rabs (0.5 - 0.2)) with 0.3 by rcases.
  decide_cmp. reflexivity.
Qed.

(** * Further properties of the engine *)

(** ** The length scale *)





(** X2. The length scale of every result is at least 0.05 m.  Under the
    policy [depth_quarter] it is at most 2 m, and a quarter of the depth
    when the depth lies between 0.2 m and 8 m; under the policy [nozzle] a
    nozzle of at most 50 mm gives just the floor 0.05 m; under [tank_half]
    it is half the smaller of diameter and depth once that is at least
    0.05 m. *)
Theorem length_scale_bounds (s : Scenario) :
  let L := ri_lengthScale_m (metrics (analyzeScenario s)) in
  let depth := Tank.water_depth_m (tank s) in
  0.05 <= L
  /\ (Options.ri_length_scale (options s) = depth_quarter ->
      L <= 2 /\ (0.2 <= depth <= 8 -> L = 0.25 * depth))
  /\ (Options.ri_length_scale (options s) = nozzle ->
      Inlet.nozzle_diameter_mm (inlet s) <= 50 -> L = 0.05)
  /\ (Options.ri_length_scale (options s) = tank_half ->
      0.1 <= Rmin (Tank.diameter_m (tank s)) depth ->
      L = Rmin (Tank.diameter_m (tank s)) depth / 2).
Proof.
  intros L depth. unfold L. rewrite analyze_L. fold depth.
  split; [apply lengthScale_floor|].
  unfold lengthScale.
  split; [|split]; intros Hp; rewrite Hp; cbv zeta.
  - split; [|intros Hd];
      unfold Rmax, Rmin; repeat destruct (Rle_dec _ _); lra.
  - intros Hd. apply Rmax_right. lra.
  - intros Hd. apply Rmax_left. lra.
Qed.

(** ** The Richardson number is a ratio of non-negative terms *)


Lemma analyze_dT_nonneg (s : Scenario) :
  0 <= deltaT_inlet_vs_tank (metrics (analyzeScenario s)).
Proof.
  rewrite analyze_dT.
  eapply Rle_trans; [apply Rabs_pos | apply Rmax_l].
Qed.



(** ** Outcomes that follow from the momentum alone *)



Lemma overall_fail_of_vertical (s : Scenario) :
  verticalStatus (analyzeScenario s) = FAIL ->
  overallStatus (analyzeScenario s) = FAIL.
Proof. intros H. rewrite analyze_overall, H. reflexivity. Qed.






Lemma hasId_app (i : string) (a b : list Recommendation) :
  hasId i (a ++ b) = hasId i a || hasId i b.
Proof. apply existsb_app. Qed.

(** Settle which recommendations a block pushes, then compare. *)
Ltac block_ids :=
  repeat match goal with
         | |- context [if ?b then _ else _] => destruct b
         end;
  reflexivity.

Lemma momentumCheck_critical (V vt : R) :
  V < 0.5 * vt ->
  fst (momentumCheck V vt) = FAIL
  /\ idsOf (snd (momentumCheck V vt)) = ["vert-mom-fail"%string].
Proof.
  intros H. unfold momentumCheck. apply Rltb_true in H. rewrite H. auto.
Qed.

(** The blocks outside the vertical rule chain push none of its
    identifiers. *)
Lemma other_blocks_not_vertical (i : string) (s : Scenario) (vs hs : Status)
    (V vt h dist : R) :
  In i [ "vert-mom-fail"; "vert-mom-warn"; "vert-strat-fail"; "vert-ri-fail";
         "vert-ri-warn"; "vert-tor" ]%string ->
  hasId i
    (elevationRecs (Inlet.elevation_from_floor_m (inlet s))
       (Outlet.elevation_from_floor_m (outlet s)) (Tank.water_depth_m (tank s)))
  = false
  /\ hasId i (layoutRecs hs h dist (Tank.water_depth_m (tank s))) = false
  /\ hasId i
       (nozzleRecs V vt (Operation.inflow_Lps (operation s))
          (Inlet.count (inlet s))) = false
  /\ hasId i
       (lowerInletRecs (Inlet.elevation_from_floor_m (inlet s))
          (Tank.water_depth_m (tank s)) vs) = false.
Proof.
  intros Hi. cbn in Hi.
  unfold elevationRecs, layoutRecs, nozzleRecs, lowerInletRecs.
  repeat (destruct Hi as [Hi | Hi]; [subst i; repeat split; block_ids|]).
  contradiction.
Qed.

(** X6. Whenever the inlet velocity is below half the target velocity, the
    vertical and overall status are FAIL with the dominant risk
    [insufficient_momentum]; the only recommendation of the vertical rule
    chain is [vert-mom-fail]: the stratification, Richardson and turnover
    rules are not evaluated. *)
Theorem critical_momentum_dominates (s : Scenario) :
  let r := analyzeScenario s in
  inletVelocity_m_s (metrics r) < 0.5 * v_target (options s) ->
  verticalStatus r = FAIL
  /\ overallStatus r = FAIL
  /\ dominantRisk r = insufficient_momentum
  /\ hasId "vert-mom-fail" (recommendations r) = true
  /\ forall i : string,
       In i [ "vert-mom-warn"; "vert-strat-fail"; "vert-ri-fail";
              "vert-ri-warn"; "vert-tor" ]%string ->
       hasId i (recommendations r) = false.
Proof.
  intros r H.
  destruct (momentumCheck_critical _ _ H) as [Hst Hids].
  assert (verticalStatus r = FAIL) as Hv.
  { unfold r. rewrite analyze_vertical. cbv zeta. fold r.
    rewrite Hst, buoyancyCheck_FAIL. cbn [fst].
    rewrite turnoverCheck_FAIL. reflexivity. }
  pose proof (overall_fail_of_vertical s Hv) as Ho. fold r in Ho.
  split; [exact Hv|]. split; [exact Ho|]. split.
  { unfold r. rewrite analyze_risk. cbv zeta. fold r. rewrite Ho, Hv.
    unfold classifyRisk. cbn. apply Rltb_true in H. rewrite H. reflexivity. }
  assert (forall i : string,
    hasId i (recommendations r)
    = hasId i
        (elevationRecs (Inlet.elevation_from_floor_m (inlet s))
           (Outlet.elevation_from_floor_m (outlet s))
           (Tank.water_depth_m (tank s)))
      || (String.eqb "vert-mom-fail" i
          || (hasId i
                (layoutRecs (horizontalStatus r)
                   (horizontalRiskScore (metrics r))
                   (snd (layoutScore (tank s) (inlet s) (outlet s) (options s)))
                   (Tank.water_depth_m (tank s)))
              || (hasId i
                    (nozzleRecs (inletVelocity_m_s (metrics r))
                       (v_target (options s))
                       (Operation.inflow_Lps (operation s))
                       (Inlet.count (inlet s)))
                  || hasId i
                       (lowerInletRecs (Inlet.elevation_from_floor_m (inlet s))
                          (Tank.water_depth_m (tank s)) (verticalStatus r))))))
    as Hrecs.
  { intros i. unfold r at 1. rewrite analyze_recs. cbv zeta. fold r.
    rewrite Hst, buoyancyCheck_FAIL. cbn [fst snd].
    rewrite turnoverCheck_FAIL. cbn [snd app].
    rewrite !hasId_app. f_equal.
    unfold momentumCheck. apply Rltb_true in H. rewrite H. cbn.
    rewrite orb_false_r. reflexivity. }
  split.
  - rewrite Hrecs. cbn. apply orb_true_r.
  - intros i Hi. rewrite Hrecs.
    destruct (other_blocks_not_vertical i s (verticalStatus r)
                (horizontalStatus r) (inletVelocity_m_s (metrics r))
                (v_target (options s)) (horizontalRiskScore (metrics r))
                (snd (layoutScore (tank s) (inlet s) (outlet s) (options s))))
      as (-> & -> & -> & ->).
    { cbn in Hi |- *. tauto. }
    cbn in Hi. cbn [orb].
    repeat (destruct Hi as [Hi | Hi]; [subst i; reflexivity|]).
    contradiction.
Qed.

Lemma critical_momentum_dominates_witness :
  let r := analyzeScenario wideNozzleScenario in
  verticalStatus r = FAIL
  /\ overallStatus r = FAIL
  /\ dominantRisk r = insufficient_momentum
  /\ hasId "vert-mom-fail" (recommendations r) = true
  /\ forall i : string,
       In i [ "vert-mom-warn"; "vert-strat-fail"; "vert-ri-fail";
              "vert-ri-warn"; "vert-tor" ]%string ->
       hasId i (recommendations r) = false.
Proof.
  apply (critical_momentum_dominates wideNozzleScenario).
  pose proof wideNozzle_velocity. cbn [options wideNozzleScenario
    withNozzleDiameter createDefaultScenario v_target
    Options.target_velocity_m_s].
  lra.
Defined.

(** ** When the vertical axis passes *)

(** The rule chain ends at PASS only when no rule fires. *)
Lemma vertical_chain_pass (V vt TOR thr f w : R) (Ri : number)
    (stable : bool) (elev depth : R) :
  let reach := penetration (stable && num_gtb Ri w) elev depth in
  fst (turnoverCheck TOR thr
         (fst (buoyancyCheck reach Ri f w (fst (momentumCheck V vt))))) = PASS
  <-> (0.5 * vt <= V /\ vt <= V /\ num_gtb Ri f = false
       /\ num_gtb Ri w = false /\ thr <= TOR).
Proof.
  cbv zeta. unfold momentumCheck, buoyancyCheck, turnoverCheck, penetration.
  rewrite <- !Rltb_false.
  destruct (V <? 0.5 * vt), (V <? vt), (num_gtb Ri f), (num_gtb Ri w),
    (TOR <? thr), stable; cbn;
    repeat match goal with
           | |- context [if ?b then _ else _] => destruct b; cbn
           end;
    split; intros; try discriminate; try tauto; intuition discriminate.
Qed.

Lemma vertical_chain_pass_silent (V vt TOR thr f w : R) (Ri : number)
    (stable : bool) (elev depth : R) :
  let reach := penetration (stable && num_gtb Ri w) elev depth in
  let mom := momentumCheck V vt in
  let buo := buoyancyCheck reach Ri f w (fst mom) in
  let tor := turnoverCheck TOR thr (fst buo) in
  fst tor = PASS ->
  snd mom = [] /\ snd buo = [] /\ snd tor = [] /\ (V <? vt) = false.
Proof.
  cbv zeta. unfold momentumCheck, buoyancyCheck, turnoverCheck, penetration.
  destruct (V <? 0.5 * vt), (V <? vt), (num_gtb Ri f), (num_gtb Ri w),
    (TOR <? thr), stable; cbn;
    repeat match goal with
           | |- context [if ?b then _ else _] => destruct b; cbn
           end;
    intros; try discriminate; auto.
Qed.


(** X8. A result whose overall status is PASS has both axes at PASS, the
    dominant risk [none], and no recommendation except the two elevation
    errors, which are pushed whatever the status is: an inlet or outlet
    above the water surface does not by itself prevent a PASS. *)
Theorem pass_keeps_elevation_errors_only (s : Scenario) :
  let r := analyzeScenario s in
  overallStatus r = PASS ->
  verticalStatus r = PASS
  /\ horizontalStatus r = PASS
  /\ dominantRisk r = none
  /\ recommendations r
     = elevationRecs (Inlet.elevation_from_floor_m (inlet s))
         (Outlet.elevation_from_floor_m (outlet s))
         (Tank.water_depth_m (tank s)).
Proof.
  intros r Ho. subst r.
  assert (verticalStatus (analyzeScenario s) = PASS
          /\ horizontalStatus (analyzeScenario s) = PASS) as [Hv Hh].
  { rewrite analyze_overall in Ho.
    destruct (verticalStatus (analyzeScenario s)),
      (horizontalStatus (analyzeScenario s)); try discriminate Ho. auto. }
  split; [exact Hv|]. split; [exact Hh|]. split.
  { rewrite analyze_risk. cbv zeta. rewrite Ho. reflexivity. }
  pose proof Hv as Hchain.
  rewrite analyze_vertical in Hchain. cbv zeta in Hchain.
  rewrite analyze_reach in Hchain. cbv zeta in Hchain.
  apply vertical_chain_pass_silent in Hchain.
  destruct Hchain as (Hm & Hb & Ht & Hvt).
  rewrite analyze_recs. cbv zeta.
  rewrite analyze_reach. cbv zeta.
  rewrite Hm, Hb, Ht, Hh, Hv. unfold nozzleRecs. rewrite Hvt.
  unfold layoutRecs, lowerInletRecs. cbn [Status_eqb negb andb app].
  rewrite andb_false_r. rewrite !app_nil_r. reflexivity.
Qed.

Lemma raisedInlet_velocity :
  inletVelocity_m_s (metrics (analyzeScenario raisedInletScenario))
  = inletVelocity_m_s (metrics (analyzeScenario createDefaultScenario)).
Proof. rewrite !analyze_Vjet. reflexivity. Qed.

Lemma raisedInlet_Ri :
  richardsonNumber (metrics (analyzeScenario raisedInletScenario))
  = richardsonNumber (metrics (analyzeScenario createDefaultScenario)).
Proof. rewrite !analyze_Ri. reflexivity. Qed.

Lemma raisedInlet_TOR :
  turnoverRatio (metrics (analyzeScenario raisedInletScenario)) = 200 / 390.
Proof.
  rewrite analyze_TOR. cbn.
  replace (Rmax 0 350 + Rmax 0 40) with 390 by rcases.
  unfold computeTurnoverRatio. decide_cmp. reflexivity.
Qed.

Lemma raisedInlet_hScore :
  horizontalRiskScore (metrics (analyzeScenario raisedInletScenario)) = 10.
Proof.
  rewrite analyze_hScore. unfold layoutScore. cbn.
  replace (Rabs (6 - 0.2)) with 5.8 by rcases.
  decide_cmp. cbn. rcases.
Qed.

Lemma raisedInlet_passes :
  overallStatus (analyzeScenario raisedInletScenario) = PASS.
Proof.
  pose proof default_velocity as HV.
  destruct default_Ri as (ri & HRi & Hri).
  rewrite <- raisedInlet_velocity in HV. rewrite <- raisedInlet_Ri in HRi.
  assert (verticalStatus (analyzeScenario raisedInletScenario) = PASS) as Hv.
  { rewrite analyze_vertical. cbv zeta. rewrite analyze_reach. cbv zeta.
    apply vertical_chain_pass. rewrite HRi, raisedInlet_TOR.
    set (V := inletVelocity_m_s _) in *. cbn.
    repeat split; try lra; decide_cmp; reflexivity. }
  rewrite analyze_overall, Hv, analyze_hStatus, raisedInlet_hScore. cbn.
  unfold layoutStatus. decide_cmp. reflexivity.
Qed.

(** The default scenario with the inlet at 6 m, above the 5 m of water,
    and a fill of 200 kL: the overall status is PASS and the one
    recommendation is the elevation error of the inlet. *)
Lemma pass_keeps_elevation_errors_only_witness :
  let r := analyzeScenario raisedInletScenario in
  verticalStatus r = PASS
  /\ horizontalStatus r = PASS
  /\ dominantRisk r = none
  /\ recommendations r
     = elevationRecs 6 0.2 5.
Proof.
  apply (pass_keeps_elevation_errors_only raisedInletScenario).
  exact raisedInlet_passes.
Defined.

(** ** The volume used for the turnover ratio *)

Lemma effective_volume_empty (op res : R) :
  Rmax 0 op + Rmax 0 res <= 0 <-> op <= 0 /\ res <= 0.
Proof.
  unfold Rmax. destruct (Rle_dec 0 op), (Rle_dec 0 res); lra.
Qed.

(** X9. The advisory that no storage is defined is among the validity
    flags exactly when neither the operating nor the reserve volume is
    positive; the turnover ratio is then taken over the geometric volume
    (0 when that is not positive), and otherwise it is the fill volume
    over max(0, operating) + max(0, reserve). *)
Theorem turnover_volume_fallback (s : Scenario) :
  let r := analyzeScenario s in
  let op := Tank.operating_storage_kL (tank s) in
  let res := Tank.reserve_unusable_kL (tank s) in
  let fill := Operation.fill_event_volume_kL (operation s) in
  (In flagNoStorage (validityFlags r) <-> op <= 0 /\ res <= 0)
  /\ (op <= 0 /\ res <= 0 ->
      turnoverRatio (metrics r)
      = computeTurnoverRatio fill
          (computeTankVolumeCyl (Tank.diameter_m (tank s))
             (Tank.water_depth_m (tank s))))
  /\ (0 < op \/ 0 < res ->
      turnoverRatio (metrics r) = fill / (Rmax 0 op + Rmax 0 res)).
Proof.
  intros r op res fill. subst r. split; [|split].
  - rewrite analyze_flags_volumes. fold op res.
    rewrite <- effective_volume_empty. split.
    + intros H. apply in_app_or in H. destruct H as [H | H].
      * unfold initialFlags, flagNoStorage in H. cbn in H.
        intuition discriminate.
      * unfold volumeFlags, flagVolumesExceed, flagNoStorage in H.
        apply in_app_or in H. destruct H as [H | H]; revert H; cmp; cbn;
          intros H; try lra; intuition discriminate.
    + intros H. apply in_or_app. right. unfold volumeFlags.
      apply in_or_app. right. apply Rleb_true in H. rewrite H.
      left. reflexivity.
  - intros H. apply effective_volume_empty in H.
    rewrite analyze_TOR. cbv zeta. fold op res fill.
    unfold Rgtb. apply Rltb_false in H. rewrite H. reflexivity.
  - intros H. rewrite analyze_TOR. cbv zeta. fold op res fill.
    assert (0 < Rmax 0 op + Rmax 0 res) as Hpos.
    { destruct (Rle_dec (Rmax 0 op + Rmax 0 res) 0) as [Hle | Hgt]; [|lra].
      apply effective_volume_empty in Hle. lra. }
    unfold Rgtb. rewrite (proj2 (Rltb_true _ _) Hpos).
    unfold computeTurnoverRatio.
    rewrite (proj2 (Rleb_false _ _) Hpos). reflexivity.
Qed.

(** ** The recommended nozzle diameter *)







(** ** Velocity, flow and the Froude number *)







(** ** The layout thresholds against the clamp *)


(** ** The identifiers of the recommendations *)

Lemma subseqb_In (l2 l1 : list string) :
  subseqb l1 l2 = true -> forall x : string, In x l1 -> In x l2.
Proof.
  revert l1. induction l2 as [|y ys IH]; intros [|x xs] H z Hz;
    try contradiction; try discriminate H.
  cbn in H. destruct (String.eqb x y) eqn:E.
  - apply String.eqb_eq in E. subst y. destruct Hz as [-> | Hz].
    + left. reflexivity.
    + right. apply (IH xs H z Hz).
  - right. apply (IH (x :: xs) H z Hz).
Qed.

Lemma subseqb_NoDup (l2 l1 : list string) :
  subseqb l1 l2 = true -> NoDup l2 -> NoDup l1.
Proof.
  revert l1. induction l2 as [|y ys IH]; intros [|x xs] H Hnd;
    try constructor; try discriminate H.
  - cbn in H. inversion Hnd as [|? ? Hy Hys]; subst.
    destruct (String.eqb x y) eqn:E.
    + apply String.eqb_eq in E. subst y. intros Hx.
      apply Hy. apply (subseqb_In ys xs H x Hx).
    + pose proof (IH (x :: xs) H Hys) as Hn. inversion Hn; assumption.
  - cbn in H. inversion Hnd as [|? ? Hy Hys]; subst.
    destruct (String.eqb x y) eqn:E.
    + apply (IH xs H Hys).
    + pose proof (IH (x :: xs) H Hys) as Hn. inversion Hn; assumption.
Qed.

Lemma allRecommendationIds_NoDup : NoDup allRecommendationIds.
Proof.
  unfold allRecommendationIds.
  repeat (constructor; [cbn; intuition discriminate|]). constructor.
Qed.

Lemma idsOf_app (a b : list Recommendation) :
  idsOf (a ++ b) = idsOf a ++ idsOf b.
Proof. apply map_app. Qed.

Lemma elevationRecs_alternatives (i o d : R) :
  let l := idsOf (elevationRecs i o d) in
  l = [] \/ l = ["err-in-elev"%string] \/ l = ["err-out-elev"%string]
  \/ l = ["err-in-elev"; "err-out-elev"]%string.
Proof. unfold elevationRecs. destruct (i >? d), (o >? d); cbn; auto. Qed.

Lemma momentumCheck_alternatives (V vt : R) :
  let l := idsOf (snd (momentumCheck V vt)) in
  l = [] \/ l = ["vert-mom-fail"%string] \/ l = ["vert-mom-warn"%string].
Proof.
  unfold momentumCheck. destruct (V <? 0.5 * vt), (V <? vt); cbn; auto.
Qed.

Lemma buoyancyCheck_alternatives (reach : Reach) (Ri : number) (f w : R)
    (vs : Status) :
  let l := idsOf (snd (buoyancyCheck reach Ri f w vs)) in
  l = [] \/ l = ["vert-strat-fail"%string] \/ l = ["vert-ri-fail"%string]
  \/ l = ["vert-ri-warn"%string].
Proof.
  unfold buoyancyCheck.
  destruct vs, reach, (num_gtb Ri f), (num_gtb Ri w); cbn; auto.
Qed.

Lemma turnoverCheck_alternatives (TOR thr : R) (vs : Status) :
  let l := idsOf (snd (turnoverCheck TOR thr vs)) in
  l = [] \/ l = ["vert-tor"%string].
Proof. unfold turnoverCheck. destruct vs, (TOR <? thr); cbn; auto. Qed.

Lemma layoutRecs_alternatives (hs : Status) (h dist d : R) :
  let l := idsOf (layoutRecs hs h dist d) in
  l = [] \/ l = ["horiz-main"%string] \/ l = ["horiz-main"; "horiz-prox"]%string.
Proof.
  unfold layoutRecs. destruct hs, (dist <? 0.15 * d); cbn; auto.
Qed.

Lemma nozzleRecs_alternatives (V vt q c : R) :
  let l := idsOf (nozzleRecs V vt q c) in
  l = [] \/ l = ["rec-nozzle"%string].
Proof. unfold nozzleRecs. destruct (V <? vt); cbn; auto. Qed.

Lemma lowerInletRecs_alternatives (i d : R) (vs : Status) :
  let l := idsOf (lowerInletRecs i d vs) in
  l = [] \/ l = ["rec-elev"%string].
Proof.
  unfold lowerInletRecs. destruct vs, (i >? 0.25 * d); cbn; auto.
Qed.

(** X15. The identifiers of the recommendations of every result are the
    list err-in-elev, err-out-elev, vert-mom-fail, vert-mom-warn,
    vert-strat-fail, vert-ri-fail, vert-ri-warn, vert-tor, horiz-main,
    horiz-prox, rec-nozzle, rec-elev with some of them left out: they come
    in this order and no identifier occurs twice (the results panel uses
    them as list keys). *)
Theorem recommendation_ids_ordered_distinct (s : Scenario) :
  let ids := idsOf (recommendations (analyzeScenario s)) in
  subseqb ids allRecommendationIds = true /\ NoDup ids.
Proof.
  intros ids.
  assert (subseqb ids allRecommendationIds = true) as H.
  { unfold ids. rewrite analyze_recs. cbv zeta. rewrite !idsOf_app.
    match goal with
    | |- context [idsOf (elevationRecs ?a ?b ?c)] =>
        pose proof (elevationRecs_alternatives a b c) as E; cbv zeta in E;
        destruct E as [E | [E | [E | E]]];
        rewrite E; clear E
    end.
    all: match goal with
    | |- context [idsOf (snd (momentumCheck ?a ?b))] =>
        pose proof (momentumCheck_alternatives a b) as E; cbv zeta in E;
        destruct E as [E | [E | E]];
        rewrite E; clear E
    end.
    all: match goal with
    | |- context [idsOf (snd (buoyancyCheck ?a ?b ?c ?d ?e))] =>
        pose proof (buoyancyCheck_alternatives a b c d e) as E; cbv zeta in E;
        destruct E as [E | [E | [E | E]]];
        rewrite E; clear E
    end.
    all: match goal with
    | |- context [idsOf (snd (turnoverCheck ?a ?b ?c))] =>
        pose proof (turnoverCheck_alternatives a b c) as E; cbv zeta in E;
        destruct E as [E | E];
        rewrite E; clear E
    end.
    all: match goal with
    | |- context [idsOf (layoutRecs ?a ?b ?c ?d)] =>
        pose proof (layoutRecs_alternatives a b c d) as E; cbv zeta in E;
        destruct E as [E | [E | E]];
        rewrite E; clear E
    end.
    all: match goal with
    | |- context [idsOf (nozzleRecs ?a ?b ?c ?d)] =>
        pose proof (nozzleRecs_alternatives a b c d) as E; cbv zeta in E;
        destruct E as [E | E];
        rewrite E; clear E
    end.
    all: match goal with
    | |- context [idsOf (lowerInletRecs ?a ?b ?c)] =>
        pose proof (lowerInletRecs_alternatives a b c) as E; cbv zeta in E;
        destruct E as [E | E];
        rewrite E; clear E
    end.
    all: reflexivity. }
  split; [exact H|].
  apply (subseqb_NoDup allRecommendationIds ids H allRecommendationIds_NoDup).
Qed.

(** ** Which recommendation appears when *)

Lemma hasId_blocks (i : string) (s : Scenario) :
  let r := analyzeScenario s in
  let m := metrics r in
  let o := options s in
  let depth := Tank.water_depth_m (tank s) in
  let mom := momentumCheck (inletVelocity_m_s m) (v_target o) in
  let buo :=
    buoyancyCheck (jetPenetrationReach m) (richardsonNumber m)
      (Options.ri_threshold_fail o) (Options.ri_threshold_warn o) (fst mom) in
  let tor :=
    turnoverCheck (turnoverRatio m) (Options.tor_threshold_warn o) (fst buo) in
  hasId i (recommendations r)
  = hasId i (elevationRecs (Inlet.elevation_from_floor_m (inlet s))
               (Outlet.elevation_from_floor_m (outlet s)) depth)
    || (hasId i (snd mom)
    || (hasId i (snd buo)
    || (hasId i (snd tor)
    || (hasId i (layoutRecs (horizontalStatus r) (horizontalRiskScore m)
                   (snd (layoutScore (tank s) (inlet s) (outlet s) o)) depth)
    || (hasId i (nozzleRecs (inletVelocity_m_s m) (v_target o)
                   (Operation.inflow_Lps (operation s)) (Inlet.count (inlet s)))
    || hasId i (lowerInletRecs (Inlet.elevation_from_floor_m (inlet s)) depth
                  (verticalStatus r))))))).
Proof.
  cbv zeta. rewrite analyze_recs at 1. cbv zeta. rewrite !hasId_app.
  reflexivity.
Qed.

Lemma layoutScore_dist (t : Tank.t) (i : Inlet.t) (o : Outlet.t)
    (opts : Options.t) :
  snd (layoutScore t i o opts)
  = Rabs (Inlet.elevation_from_floor_m i - Outlet.elevation_from_floor_m o).
Proof. reflexivity. Qed.

(** A block that cannot push the identifier does not hold it. *)
Ltac foreign_blocks :=
  repeat match goal with
         | |- context [hasId ?i ?B] =>
             replace (hasId i B) with false
               by (unfold elevationRecs, momentumCheck, buoyancyCheck,
                     turnoverCheck, layoutRecs, nozzleRecs, lowerInletRecs;
                   block_ids)
         end.

Lemma Status_neq_PASS (st : Status) :
  negb (Status_eqb st PASS) = true <-> st <> PASS.
Proof. destruct st; cbn; split; intros; congruence. Qed.

Lemma hasId_rec_nozzle (s : Scenario) :
  hasId "rec-nozzle" (recommendations (analyzeScenario s))
  = (inletVelocity_m_s (metrics (analyzeScenario s)) <? v_target (options s)).
Proof.
  rewrite hasId_blocks. cbv zeta. foreign_blocks. unfold nozzleRecs.
  destruct (_ <? v_target (options s)); reflexivity.
Qed.

Lemma hasId_rec_elev (s : Scenario) :
  hasId "rec-elev" (recommendations (analyzeScenario s))
  = (Inlet.elevation_from_floor_m (inlet s) >? 0.25 * Tank.water_depth_m (tank s))
    && negb (Status_eqb (verticalStatus (analyzeScenario s)) PASS).
Proof.
  rewrite hasId_blocks. cbv zeta. foreign_blocks. unfold lowerInletRecs.
  destruct (_ && _); reflexivity.
Qed.

Lemma hasId_horiz (s : Scenario) :
  let hs := horizontalStatus (analyzeScenario s) in
  hasId "horiz-main" (recommendations (analyzeScenario s))
  = negb (Status_eqb hs PASS)
  /\ hasId "horiz-prox" (recommendations (analyzeScenario s))
     = negb (Status_eqb hs PASS)
       && (Rabs (Inlet.elevation_from_floor_m (inlet s)
                 - Outlet.elevation_from_floor_m (outlet s))
           <? 0.15 * Tank.water_depth_m (tank s)).
Proof.
  cbv zeta. rewrite !hasId_blocks. cbv zeta. rewrite layoutScore_dist.
  foreign_blocks. unfold layoutRecs.
  destruct (negb _), (_ <? 0.15 * _); split; reflexivity.
Qed.

Lemma hasId_err_elev (s : Scenario) :
  hasId "err-in-elev" (recommendations (analyzeScenario s))
  = (Inlet.elevation_from_floor_m (inlet s) >? Tank.water_depth_m (tank s))
  /\ hasId "err-out-elev" (recommendations (analyzeScenario s))
     = (Outlet.elevation_from_floor_m (outlet s) >? Tank.water_depth_m (tank s)).
Proof.
  rewrite !hasId_blocks. cbv zeta. foreign_blocks. unfold elevationRecs.
  destruct (Inlet.elevation_from_floor_m (inlet s) >? _),
    (Outlet.elevation_from_floor_m (outlet s) >? _); split; reflexivity.
Qed.

(** X16. When the advisory recommendations appear in a result:
    [rec-nozzle] exactly when the inlet velocity is below the target;
    [rec-elev] exactly when the inlet is above a quarter of the depth and
    the vertical status is not PASS; [horiz-main] exactly when the
    horizontal status is not PASS, and [horiz-prox] exactly when moreover
    inlet and outlet are closer than 15 percent of the depth;
    [err-in-elev] and [err-out-elev] exactly when the inlet, respectively
    the outlet, is above the water depth. *)
Theorem recommendation_conditions (s : Scenario) :
  let r := analyzeScenario s in
  let recs := recommendations r in
  let depth := Tank.water_depth_m (tank s) in
  let inlet_elev := Inlet.elevation_from_floor_m (inlet s) in
  let outlet_elev := Outlet.elevation_from_floor_m (outlet s) in
  (hasId "rec-nozzle" recs = true
   <-> inletVelocity_m_s (metrics r) < v_target (options s))
  /\ (hasId "rec-elev" recs = true
      <-> 0.25 * depth < inlet_elev /\ verticalStatus r <> PASS)
  /\ (hasId "horiz-main" recs = true <-> horizontalStatus r <> PASS)
  /\ (hasId "horiz-prox" recs = true
      <-> horizontalStatus r <> PASS
          /\ Rabs (inlet_elev - outlet_elev) < 0.15 * depth)
  /\ (hasId "err-in-elev" recs = true <-> depth < inlet_elev)
  /\ (hasId "err-out-elev" recs = true <-> depth < outlet_elev).
Proof.
  intros r recs depth inlet_elev outlet_elev. subst recs r.
  destruct (hasId_horiz s) as [Hmain Hprox]. cbv zeta in Hmain, Hprox.
  destruct (hasId_err_elev s) as [Hin Hout].
  rewrite hasId_rec_nozzle, hasId_rec_elev, Hmain, Hprox, Hin, Hout.
  fold depth inlet_elev outlet_elev. unfold Rgtb.
  rewrite !andb_true_iff, !Rltb_true, !Status_neq_PASS. tauto.
Qed.

(** ** A stricter target velocity never improves the status *)

Lemma momentumCheck_mono (V vt1 vt2 : R) :
  vt1 <= vt2 ->
  Status_le (fst (momentumCheck V vt1)) (fst (momentumCheck V vt2)).
Proof.
  intros H. unfold momentumCheck, Status_le.
  destruct (V <? 0.5 * vt1) eqn:E1, (V <? vt1) eqn:E2,
    (V <? 0.5 * vt2) eqn:E3, (V <? vt2) eqn:E4; cbn; try lia;
    rewrite ?Rltb_true, ?Rltb_false in *; lra.
Qed.

Lemma buoyancyCheck_mono (reach : Reach) (Ri : number) (f w : R)
    (a b : Status) :
  Status_le a b ->
  Status_le (fst (buoyancyCheck reach Ri f w a))
    (fst (buoyancyCheck reach Ri f w b)).
Proof.
  unfold buoyancyCheck, Status_le.
  destruct a, b, reach, (num_gtb Ri f), (num_gtb Ri w); cbn; lia.
Qed.

Lemma turnoverCheck_mono (TOR thr : R) (a b : Status) :
  Status_le a b ->
  Status_le (fst (turnoverCheck TOR thr a)) (fst (turnoverCheck TOR thr b)).
Proof.
  unfold turnoverCheck, Status_le.
  destruct a, b, (TOR <? thr); cbn; lia.
Qed.

Lemma aggregate_mono (a b h : Status) :
  Status_le a b -> Status_le (aggregate a h) (aggregate b h).
Proof. unfold Status_le. destruct a, b, h; cbn; lia. Qed.

Lemma vertical_chain_mono (V vt1 vt2 TOR thr f w : R) (Ri : number)
    (reach : Reach) :
  vt1 <= vt2 ->
  Status_le
    (fst (turnoverCheck TOR thr
            (fst (buoyancyCheck reach Ri f w (fst (momentumCheck V vt1))))))
    (fst (turnoverCheck TOR thr
            (fst (buoyancyCheck reach Ri f w (fst (momentumCheck V vt2)))))).
Proof.
  intros H.
  apply turnoverCheck_mono, buoyancyCheck_mono, momentumCheck_mono, H.
Qed.

(** The target velocity is read by the momentum rule only. *)
Ltac same_but_target :=
  rewrite !analyze_vertical; cbv zeta; rewrite !analyze_reach; cbv zeta;
  to_inputs;
  cbn [withOptions withTargetVelocity onConservatismChange tank inlet outlet
       operation water options Options.ri_threshold_fail
       Options.ri_threshold_warn Options.tor_threshold_warn
       Options.ri_length_scale].

(** X17. Raising the target velocity of a scenario, everything else kept,
    never improves its vertical or overall status under
    PASS < WARN < FAIL, and leaves the horizontal status as it is. *)
Theorem stricter_target_never_improves (s : Scenario) (v : R) :
  let s' := withOptions (withTargetVelocity v (options s)) s in
  v_target (options s) <= v ->
  Status_le (verticalStatus (analyzeScenario s))
    (verticalStatus (analyzeScenario s'))
  /\ horizontalStatus (analyzeScenario s')
     = horizontalStatus (analyzeScenario s)
  /\ Status_le (overallStatus (analyzeScenario s))
       (overallStatus (analyzeScenario s')).
Proof.
  intros s' H. subst s'.
  assert (Status_le (verticalStatus (analyzeScenario s))
            (verticalStatus
               (analyzeScenario
                  (withOptions (withTargetVelocity v (options s)) s))))
    as Hv.
  { same_but_target. apply vertical_chain_mono. exact H. }
  assert (horizontalStatus
            (analyzeScenario (withOptions (withTargetVelocity v (options s)) s))
          = horizontalStatus (analyzeScenario s)) as Hh.
  { rewrite !analyze_hStatus, !analyze_hScore. reflexivity. }
  split; [exact Hv|]. split; [exact Hh|].
  rewrite !analyze_overall, Hh. apply aggregate_mono. exact Hv.
Qed.

Lemma stricter_target_never_improves_witness :
  let s' :=
    withOptions (withTargetVelocity 1.0 (options createDefaultScenario))
      createDefaultScenario in
  Status_le (verticalStatus (analyzeScenario createDefaultScenario))
    (verticalStatus (analyzeScenario s'))
  /\ horizontalStatus (analyzeScenario s')
     = horizontalStatus (analyzeScenario createDefaultScenario)
  /\ Status_le (overallStatus (analyzeScenario createDefaultScenario))
       (overallStatus (analyzeScenario s')).
Proof.
  apply (stricter_target_never_improves createDefaultScenario 1.0).
  cbn. lra.
Defined.


(** * The display of a result *)

(** ** The operating point chart *)








(** ** The results panel *)



(** * The scenario form *)

(** ** The unusable volume kept by the tank tab *)









(** * The list of scenarios *)

Lemma find_id_none (a : string) (l : list Scenario) :
  ~ In a (map id l) -> find (fun s => String.eqb (id s) a) l = None.
Proof.
  induction l as [|x xs IH]; intros H; [reflexivity|]. cbn in *.
  destruct (String.eqb (id x) a) eqn:E.
  - apply String.eqb_eq in E. tauto.
  - apply IH. tauto.
Qed.

Lemma find_id_some (a : string) (l : list Scenario) :
  In a (map id l) ->
  exists s : Scenario,
    find (fun s => String.eqb (id s) a) l = Some s /\ In s l /\ id s = a.
Proof.
  induction l as [|x xs IH]; intros H; [contradiction|]. cbn in *.
  destruct (String.eqb (id x) a) eqn:E.
  - apply String.eqb_eq in E. exists x. auto.
  - destruct H as [H | H]; [apply String.eqb_neq in E; contradiction|].
    destruct (IH H) as (s & Hs & Hin & Hid). exists s. auto.
Qed.

Lemma find_app_one (f : Scenario -> bool) (l : list Scenario) (x : Scenario) :
  find f (l ++ [x])
  = match find f l with
    | Some y => Some y
    | None => if f x then Some x else None
    end.
Proof.
  induction l as [|y ys IH]; cbn; [reflexivity|].
  destruct (f y); [reflexivity | exact IH].
Qed.

Lemma replace_keeps_ids (updated : Scenario) (l : list Scenario) :
  map id
    (map (fun s => if String.eqb (id s) (id updated) then updated else s) l)
  = map id l.
Proof.
  induction l as [|x xs IH]; cbn; [reflexivity|].
  rewrite IH. destruct (String.eqb (id x) (id updated)) eqn:E;
    [apply String.eqb_eq in E; rewrite E|]; reflexivity.
Qed.

Lemma replace_members (updated : Scenario) (l : list Scenario) (s : Scenario) :
  In s (map (fun s => if String.eqb (id s) (id updated) then updated else s) l)
  -> s = updated \/ In s l /\ id s <> id updated.
Proof.
  induction l as [|x xs IH]; cbn; [contradiction|].
  intros [Hs | Hs].
  - destruct (String.eqb (id x) (id updated)) eqn:E.
    + left. auto.
    + right. subst s. apply String.eqb_neq in E. auto.
  - destruct (IH Hs) as [H | [H1 H2]]; auto.
Qed.

Lemma replace_absent (updated : Scenario) (l : list Scenario) :
  ~ In (id updated) (map id l) ->
  map (fun s => if String.eqb (id s) (id updated) then updated else s) l = l.
Proof.
  induction l as [|x xs IH]; cbn; intros H; [reflexivity|].
  destruct (String.eqb (id x) (id updated)) eqn:E.
  - apply String.eqb_eq in E. tauto.
  - rewrite IH by tauto. reflexivity.
Qed.

(** X24. Updating a scenario replaces every scenario of its identifier
    and no other: the identifiers of the list, their order and the active
    identifier stay as they are, and an update whose identifier is not in
    the list changes nothing. *)
Theorem update_keeps_identifiers (updated : Scenario) (st : App.State) :
  let st' := App.handleUpdateScenario updated st in
  map id (App.scenarios st') = map id (App.scenarios st)
  /\ App.activeId st' = App.activeId st
  /\ (forall s : Scenario,
        In s (App.scenarios st') ->
        s = updated \/ In s (App.scenarios st) /\ id s <> id updated)
  /\ (~ In (id updated) (map id (App.scenarios st)) -> st' = st).
Proof.
  destruct st as [l a]. cbv zeta. unfold App.handleUpdateScenario.
  cbn [App.scenarios App.activeId].
  split; [apply replace_keeps_ids|]. split; [reflexivity|].
  split; [intros s; apply replace_members|].
  intros H. rewrite replace_absent by exact H. reflexivity.
Qed.

Lemma replace_finds (updated : Scenario) (l : list Scenario) :
  In (id updated) (map id l) ->
  find (fun s => String.eqb (id s) (id updated))
    (map (fun s => if String.eqb (id s) (id updated) then updated else s) l)
  = Some updated.
Proof.
  induction l as [|x xs IH]; cbn; [contradiction|].
  intros Hin. destruct (String.eqb (id x) (id updated)) eqn:E.
  - rewrite String.eqb_refl. reflexivity.
  - rewrite E. destruct Hin as [Hin | Hin];
      [apply String.eqb_neq in E; contradiction|].
    apply IH. exact Hin.
Qed.

(** X25. An update of the active scenario is what the application shows
    next: when the identifier of the updated scenario is the active one
    and occurs in the list, the active scenario of the new state is the
    updated scenario and the result shown is its analysis. *)
Theorem update_reaches_active (updated : Scenario) (st : App.State) :
  let st' := App.handleUpdateScenario updated st in
  id updated = App.activeId st ->
  In (App.activeId st) (map id (App.scenarios st)) ->
  App.activeScenario st' = Some updated
  /\ App.result st' = Some (analyzeScenario updated).
Proof.
  destruct st as [l a]. cbv zeta. cbn [App.activeId App.scenarios].
  intros Hid Hin. subst a.
  assert (App.activeScenario
            (App.handleUpdateScenario updated (App.mkState l (id updated)))
          = Some updated) as H.
  { unfold App.activeScenario, App.handleUpdateScenario.
    cbn [App.scenarios App.activeId].
    rewrite (replace_finds updated l Hin). reflexivity. }
  split; [exact H|]. unfold App.result. rewrite H. reflexivity.
Qed.

Lemma update_reaches_active_witness :
  let updated := withNozzleDiameter 300 createDefaultScenario in
  let st' := App.handleUpdateScenario updated App.initialState in
  App.activeScenario st' = Some updated
  /\ App.result st' = Some (analyzeScenario updated).
Proof.
  apply (update_reaches_active (withNozzleDiameter 300 createDefaultScenario)
           App.initialState).
  - reflexivity.
  - left. reflexivity.
Defined.

Lemma analyze_ignores_id_name (i n : string) (s : Scenario) :
  analyzeScenario (withIdName i n s) = analyzeScenario s.
Proof. reflexivity. Qed.

(** X26. Adding a scenario appends a copy of the default scenario named
    after the new length of the list and makes its identifier,
    scenario-<time>, the active one.  If that identifier is not yet in the
    list, the new scenario is the active one and its result is that of the
    default scenario; if it is, the scenario shown is the earlier one of
    that identifier. *)
Theorem add_appends_default (now : N) (st : App.State) :
  let st' := App.handleAddScenario now st in
  let newId := ("scenario-" ++ decimal now)%string in
  List.length (App.scenarios st') = S (List.length (App.scenarios st))
  /\ App.activeId st' = newId
  /\ (~ In newId (map id (App.scenarios st)) ->
      exists newS : Scenario,
        App.scenarios st' = (App.scenarios st ++ [newS])%list
        /\ App.activeScenario st' = Some newS
        /\ id newS = newId
        /\ App.result st' = Some (analyzeScenario createDefaultScenario))
  /\ (In newId (map id (App.scenarios st)) ->
      exists old : Scenario,
        In old (App.scenarios st) /\ App.activeScenario st' = Some old).
Proof.
  destruct st as [l a]. cbv zeta.
  unfold App.result, App.handleAddScenario, App.activeScenario.
  cbn [App.scenarios App.activeId withIdName id].
  rewrite find_app_one. cbn [withIdName id]. rewrite String.eqb_refl.
  split; [|split; [|split]].
  - rewrite length_app. cbn. lia.
  - reflexivity.
  - intros H. eexists. split; [reflexivity|].
    rewrite (find_id_none _ l H). cbn [option_map withIdName id]. auto.
  - intros H. destruct (find_id_some _ l H) as (s & Hs & Hin & _).
    exists s. rewrite Hs. auto.
Qed.

(** X27. Duplicating the active scenario appends a copy that differs
    from it in identifier and name only; when the new identifier is not
    yet in the list the copy becomes the active scenario and the result
    shown stays the one of the original. *)
Theorem duplicate_keeps_result (now : N) (st : App.State)
    (active : Scenario) :
  let newId := ("scenario-" ++ decimal now)%string in
  App.activeScenario st = Some active ->
  ~ In newId (map id (App.scenarios st)) ->
  exists st' : App.State,
    App.handleDuplicate now st = Some st'
    /\ App.scenarios st'
       = (App.scenarios st
          ++ [withIdName newId (name active ++ " (Copy)")%string active])%list
    /\ App.activeId st' = newId
    /\ App.result st' = App.result st.
Proof.
  destruct st as [l a]. cbv zeta. intros Hact Hfresh.
  unfold App.handleDuplicate. rewrite Hact.
  eexists. split; [reflexivity|].
  cbn [App.scenarios App.activeId withIdName id].
  split; [reflexivity|]. split; [reflexivity|].
  unfold App.result, App.activeScenario in *.
  cbn [App.scenarios App.activeId] in *.
  rewrite find_app_one, (find_id_none _ l Hfresh).
  cbn [withIdName id]. rewrite String.eqb_refl, Hact. reflexivity.
Qed.

Lemma duplicate_keeps_result_witness :
  exists st' : App.State,
    App.handleDuplicate 7 App.initialState = Some st'
    /\ App.scenarios st'
       = [createDefaultScenario;
          withIdName "scenario-7" "Baseline Scenario (Copy)"
            createDefaultScenario]
    /\ App.activeId st' = "scenario-7"%string
    /\ App.result st' = App.result App.initialState.
Proof.
  apply (duplicate_keeps_result 7 App.initialState createDefaultScenario).
  - reflexivity.
  - cbn. intros [H | []]. discriminate H.
Defined.

Lemma filter_other_ids_all (a : string) (l : list Scenario) :
  ~ In a (map id l) ->
  filter (fun s => negb (String.eqb (id s) a)) l = l.
Proof.
  induction l as [|x xs IH]; cbn; intros H; [reflexivity|].
  destruct (String.eqb (id x) a) eqn:E.
  - apply String.eqb_eq in E. tauto.
  - cbn. rewrite IH by tauto. reflexivity.
Qed.

Lemma filter_other_ids_length (a : string) (l : list Scenario) :
  NoDup (map id l) -> In a (map id l) ->
  S (List.length (filter (fun s => negb (String.eqb (id s) a)) l))
  = List.length l.
Proof.
  induction l as [|x xs IH]; cbn; intros Hnd Hin; [contradiction|].
  inversion Hnd as [|? ? Hx Hxs]; subst.
  destruct (String.eqb (id x) a) eqn:E; cbn.
  - apply String.eqb_eq in E. subst a.
    rewrite filter_other_ids_all by exact Hx. reflexivity.
  - destruct Hin as [Hin | Hin];
      [apply String.eqb_neq in E; contradiction|].
    rewrite (IH Hxs Hin). reflexivity.
Qed.

Lemma filter_other_ids_members (a : string) (l : list Scenario)
    (s : Scenario) :
  In s (filter (fun s => negb (String.eqb (id s) a)) l)
  <-> In s l /\ id s <> a.
Proof.
  rewrite filter_In, negb_true_iff, String.eqb_neq. tauto.
Qed.

Lemma nth_error_last (l : list Scenario) :
  l <> [] ->
  exists x : Scenario,
    nth_error l (List.length l - 1) = Some x /\ In x l.
Proof.
  intros H. destruct (nth_error l (List.length l - 1)) as [x|] eqn:E.
  - exists x. split; [reflexivity|]. apply (nth_error_In _ _ E).
  - apply nth_error_None in E. destruct l; [contradiction|]. cbn in E. lia.
Qed.

Lemma find_gives_active (st : App.State) :
  App.scenarios st <> [] -> App.activeScenario st <> None.
Proof.
  destruct st as [l a]. unfold App.activeScenario. cbn. intros H.
  destruct (find _ l); [discriminate|]. destruct l; [contradiction|].
  discriminate.
Qed.

(** X28. Deleting keeps a selection: in a list of at least two scenarios
    with distinct identifiers, one of which is the active one, a confirmed
    delete removes exactly the active scenario, keeps the others in
    order, and makes the last remaining scenario the active one, which is
    then found in the list. *)
Theorem delete_keeps_a_selection (st : App.State) :
  NoDup (map id (App.scenarios st)) ->
  In (App.activeId st) (map id (App.scenarios st)) ->
  (2 <= List.length (App.scenarios st))%nat ->
  exists st' : App.State,
    App.handleDelete true st = App.NewState st'
    /\ S (List.length (App.scenarios st')) = List.length (App.scenarios st)
    /\ (forall s : Scenario,
          In s (App.scenarios st')
          <-> In s (App.scenarios st) /\ id s <> App.activeId st)
    /\ exists last : Scenario,
         App.activeScenario st' = Some last
         /\ id last = App.activeId st'
         /\ nth_error (App.scenarios st')
              (List.length (App.scenarios st') - 1) = Some last.
Proof.
  destruct st as [l a]. cbn [App.scenarios App.activeId].
  intros Hnd Hin Hlen.
  pose proof (filter_other_ids_length a l Hnd Hin) as Hflen.
  set (remaining := filter (fun s => negb (String.eqb (id s) a)) l) in *.
  assert (remaining <> []) as Hne.
  { intros E. rewrite E in Hflen. cbn in Hflen. lia. }
  destruct (nth_error_last remaining Hne) as (last & Hlast & Hlin).
  assert (App.handleDelete true (App.mkState l a)
          = App.NewState (App.mkState remaining (id last))) as Hdel.
  { unfold App.handleDelete. cbn [App.scenarios App.activeId].
    destruct (Nat.eqb (List.length l) 1) eqn:E;
      [apply Nat.eqb_eq in E; lia|].
    destruct (App.activeScenario (App.mkState l a)) eqn:Ea.
    - fold remaining. rewrite Hlast. reflexivity.
    - exfalso. revert Ea. apply find_gives_active. cbn.
      intros ->. cbn in Hlen. lia. }
  exists (App.mkState remaining (id last)).
  cbn [App.scenarios App.activeId].
  split; [exact Hdel|]. split; [exact Hflen|].
  split; [intros s; apply filter_other_ids_members|].
  exists last. split; [|split; [reflexivity | exact Hlast]].
  assert (NoDup (map id remaining)) as Hnd'.
  { unfold remaining. clear -Hnd. induction l as [|x xs IH]; cbn;
      [constructor|].
    inversion Hnd as [|? ? Hx Hxs]; subst.
    destruct (String.eqb (id x) a); cbn; [apply IH; exact Hxs|].
    constructor; [|apply IH; exact Hxs].
    intros H. apply Hx. apply in_map_iff in H.
    destruct H as (y & Hy & Hyin). apply filter_In in Hyin.
    apply in_map_iff. exists y. tauto. }
  unfold App.activeScenario. cbn [App.scenarios App.activeId].
  assert (In (id last) (map id remaining)) as Hidin
    by (apply in_map; exact Hlin).
  destruct (find_id_some _ _ Hidin) as (s & Hs & Hsin & Hsid).
  rewrite Hs. f_equal.
  clear -Hnd' Hsin Hlin Hsid.
  induction remaining as [|x xs IH]; [contradiction|].
  cbn in Hnd'. inversion Hnd' as [|? ? Hx Hxs]; subst.
  destruct Hsin as [-> | Hsin], Hlin as [-> | Hlin]; try reflexivity.
  - exfalso. apply Hx. rewrite Hsid. apply in_map. exact Hlin.
  - exfalso. apply Hx. rewrite <- Hsid. apply in_map. exact Hsin.
  - apply IH; assumption.
Qed.

Lemma delete_keeps_a_selection_witness :
  exists st' : App.State,
    App.handleDelete true (App.handleAddScenario 7 App.initialState)
    = App.NewState st'
    /\ S (List.length (App.scenarios st'))
       = List.length (App.scenarios (App.handleAddScenario 7 App.initialState))
    /\ (forall s : Scenario,
          In s (App.scenarios st')
          <-> In s (App.scenarios (App.handleAddScenario 7 App.initialState))
              /\ id s <> App.activeId (App.handleAddScenario 7 App.initialState))
    /\ exists last : Scenario,
         App.activeScenario st' = Some last
         /\ id last = App.activeId st'
         /\ nth_error (App.scenarios st')
              (List.length (App.scenarios st') - 1) = Some last.
Proof.
  apply (delete_keeps_a_selection (App.handleAddScenario 7 App.initialState)).
  - cbn. repeat (constructor; [cbn; intuition discriminate|]). constructor.
  - cbn. right. left. reflexivity.
  - cbn. lia.
Defined.

(** X29. When deleting does not delete: with exactly one scenario it only
    alerts; when the user does not confirm, the state stays.  When it
    throws: with no scenario at all, and, once confirmed, when every
    scenario of a longer list carries the active identifier, since then
    nothing remains to select. *)
Theorem delete_refusals (st : App.State) (confirmed : bool) :
  (List.length (App.scenarios st) = 1%nat ->
   App.handleDelete confirmed st = App.Alert "Cannot delete the last scenario.")
  /\ ((2 <= List.length (App.scenarios st))%nat ->
      App.handleDelete false st = App.NoChange)
  /\ (App.scenarios st = [] -> App.handleDelete confirmed st = App.Throws)
  /\ ((2 <= List.length (App.scenarios st))%nat ->
      (forall s : Scenario, In s (App.scenarios st) -> id s = App.activeId st) ->
      App.handleDelete true st = App.Throws).
Proof.
  destruct st as [l a]. cbn [App.scenarios App.activeId].
  unfold App.handleDelete. cbn [App.scenarios App.activeId].
  split; [|split; [|split]].
  - intros ->. reflexivity.
  - intros Hlen.
    destruct (Nat.eqb (List.length l) 1) eqn:E;
      [apply Nat.eqb_eq in E; lia|].
    destruct (App.activeScenario (App.mkState l a)) eqn:Ea; [reflexivity|].
    exfalso. revert Ea. apply find_gives_active. cbn. intros ->.
    cbn in Hlen. lia.
  - intros ->. reflexivity.
  - intros Hlen Hall.
    destruct (Nat.eqb (List.length l) 1) eqn:E;
      [apply Nat.eqb_eq in E; lia|].
    destruct (App.activeScenario (App.mkState l a)) eqn:Ea; [|reflexivity].
    replace (filter (fun s => negb (String.eqb (id s) a)) l) with (@nil Scenario);
      [reflexivity|].
    symmetry. clear -Hall. induction l as [|x xs IH]; [reflexivity|]. cbn.
    rewrite (Hall x (or_introl eq_refl)), String.eqb_refl. cbn.
    apply IH. intros s Hs. apply Hall. right. exact Hs.
Qed.

(** ** The points of the chart *)

(** X30. The chart reuses the result of the current scenario for every
    scenario of the same identifier.  When that result is the analysis of
    the current scenario and no other scenario of the list carries its
    identifier, every point is the operating point of its own scenario:
    Richardson number, inlet velocity and overall status of its analysis,
    marked as current exactly for the current identifier. *)
Theorem chart_points_are_own_results (current : Scenario)
    (all : list Scenario) :
  (forall s : Scenario, In s all -> id s = id current -> s = current) ->
  Chart.points current (analyzeScenario current) all
  = map (fun s =>
           {| Chart.x := richardsonNumber (metrics (analyzeScenario s));
              Chart.y := inletVelocity_m_s (metrics (analyzeScenario s));
              Chart.status := overallStatus (analyzeScenario s);
              Chart.isCurrent := String.eqb (id s) (id current);
              Chart.name := name s |})
      all.
Proof.
  intros Huniq. unfold Chart.points. apply map_ext_in.
  intros s Hs. cbv zeta. unfold scenarioName.
  destruct (String.eqb (id s) (id current)) eqn:E; [|reflexivity].
  apply String.eqb_eq in E. rewrite (Huniq s Hs E). reflexivity.
Qed.

Lemma chart_points_are_own_results_witness :
  Chart.points createDefaultScenario (analyzeScenario createDefaultScenario)
    [createDefaultScenario;
     withIdName "scenario-7" "Wide" wideNozzleScenario]
  = map (fun s =>
           {| Chart.x := richardsonNumber (metrics (analyzeScenario s));
              Chart.y := inletVelocity_m_s (metrics (analyzeScenario s));
              Chart.status := overallStatus (analyzeScenario s);
              Chart.isCurrent := String.eqb (id s) (id createDefaultScenario);
              Chart.name := name s |})
      [createDefaultScenario;
       withIdName "scenario-7" "Wide" wideNozzleScenario].
Proof.
  apply (chart_points_are_own_results createDefaultScenario).
  intros s [<- | [<- | []]] H; [reflexivity | discriminate H].
Defined.
